(** * Gas-table cache of the Curve gas estimator

    A shallow embedding of [scripts/gas_calculator.py]: the merge of a freshly
    computed gas table into the JSON cache file, the three commands built on
    it, and the properties the design document states about them.

    Python values are modelled as follows.
    - A dict with string keys is a [gmap string _]; [k in d] is
      [is_Some (d !! k)], [d[k]] raises [KeyError] on a missing key and
      [d[k] = v] is [<[k:=v]> d].
    - A gas table is a dict whose values are JSON integers or nested
      per-method objects ([jval]).
    - The file system is a map from path to file content.
    - A command is a function from the file system to the file system it
      leaves, the events it emitted (console lines, file opens, gas-table
      computations asked of the chain collaborator) and either a value or
      the exception that escaped ([M]).  Exceptions are instances of Python's
      [Exception] class, which is what [except Exception] matches.
    - What the file imports ([ape], [json], the sibling modules of the
      [scripts] package) is an interface, [Collaborators].

    Outside the model: floating-point numbers (a count is an integer),
    cache files whose JSON is not an object of objects, failures of
    [open] and of the write itself, and the order in which Python iterates
    over a set (the elements of a finite set stand for it, and no statement
    depends on their order). *)

From Stdlib Require Import ZArith Ascii String.
From stdpp Require Import base option list gmap sets strings pretty.

Local Open Scope Z_scope.

(** ** Values *)

(** A value stored in a gas table: the table-level ["count"] is an integer,
    a method entry is an object of numbers. *)
Inductive jval : Type :=
  | JInt (n : Z)
  | JObj (fields : gmap string Z).

Global Instance jval_eq_dec : EqDecision jval.
Proof. solve_decision. Defined.

Global Instance jval_countable : Countable jval.
Proof.
  refine (inj_countable'
    (λ v, match v with JInt n => inl n | JObj fields => inr fields end)
    (λ s, match s with inl n => JInt n | inr fields => JObj fields end) _).
  by intros [].
Defined.

Abbreviation GasTable := (gmap string jval).
Abbreviation Costs := (gmap string (gmap string jval)).
Abbreviation FileSystem := (gmap string string).

(** ** Exceptions and results *)

Inductive exn : Type :=
  | AssertionError
  | KeyError (key : string)
  | TypeError
  | FileNotFoundError (path : string)
  | UpstreamError (what : string).

Inductive res (A : Type) : Type :=
  | Ok (a : A)
  | Raise (e : exn).
Arguments Ok {A} a.
Arguments Raise {A} e.

(** [ape.Contract(address)]: the instance remembers the address it was made
    for. *)
Record ContractInstance : Type := { address : string }.

(** ** Events *)

Inductive event : Type :=
  | Print (text : string)
  | OpenRead (path : string)
  | OpenWrite (path : string)
  | GasTableRequest (pool : ContractInstance) (min_transactions : Z)
  | GasTableRangeRequest (pool : ContractInstance) (start_block end_block : Z)
  | CallTreeRequest (tx_hash : string).

(** ** Reading the events *)

(** The pool address of a gas-table computation asked by the scan. *)
Definition requested_pool (e : event) : option string :=
  match e with
  | GasTableRequest pool _ => Some (address pool)
  | _ => None
  end.

Definition requested_pools (events : list event) : list string :=
  omap requested_pool events.

(** The paths opened, for reading or for writing. *)
Definition opened_path (e : event) : option string :=
  match e with
  | OpenRead path | OpenWrite path => Some path
  | _ => None
  end.

Definition opened_paths (events : list event) : list string :=
  omap opened_path events.

(** The paths opened for writing. *)
Definition written_path (e : event) : option string :=
  match e with
  | OpenWrite path => Some path
  | _ => None
  end.

Definition written_paths (events : list event) : list string :=
  omap written_path events.

(** The lines printed on the console. *)
Definition printed_line (e : event) : option string :=
  match e with
  | Print text => Some text
  | _ => None
  end.

Definition printed (events : list event) : list string :=
  omap printed_line events.

(** ** Commands *)

Record Run (A : Type) : Type :=
  { files : FileSystem; emitted : list event; result : res A }.
Arguments files {A} r.
Arguments emitted {A} r.
Arguments result {A} r.

Definition M (A : Type) : Type := FileSystem → Run A.

Definition run {A} (m : M A) (fs : FileSystem) : Run A := m fs.

Definition ret {A} (a : A) : M A :=
  λ fs, {| files := fs; emitted := []; result := Ok a |}.

(** The run [r], after the events [before]. *)
Definition after {A} (before : list event) (r : Run A) : Run A :=
  {| files := files r; emitted := before ++ emitted r; result := result r |}.

Definition bind {A B} (m : M A) (k : A → M B) : M B :=
  λ fs,
    let r := m fs in
    match result r with
    | Ok a => after (emitted r) (k a (files r))
    | Raise e => {| files := files r; emitted := emitted r; result := Raise e |}
    end.

Declare Scope M_scope.
Delimit Scope M_scope with M.
Notation "x ← y ; z" := (bind y (λ x, z))
  (at level 20, y at level 100, z at level 200, only parsing) : M_scope.
Notation "x ;; z" := (bind x (λ _, z))
  (at level 100, z at level 200, only parsing, right associativity) : M_scope.
Local Open Scope M_scope.

Definition raise {A} (e : exn) : M A :=
  λ fs, {| files := fs; emitted := []; result := Raise e |}.

Definition lift {A} (r : res A) : M A :=
  λ fs, {| files := fs; emitted := []; result := r |}.

Definition emit (e : event) : M unit :=
  λ fs, {| files := fs; emitted := [e]; result := Ok tt |}.

(** A command that leaves the files alone and emits nothing. *)
Definition silent {A} (m : M A) : Prop :=
  ∀ fs, files (run m fs) = fs ∧ emitted (run m fs) = [].

(** A command that leaves the files alone and opens none. *)
Definition untouched {A} (m : M A) : Prop :=
  ∀ fs, files (run m fs) = fs ∧ opened_paths (emitted (run m fs)) = [].

(** [try: body except Exception: handler] *)
Definition try_except {A} (body : M A) (handler : exn → M A) : M A :=
  λ fs,
    let r := body fs in
    match result r with
    | Ok a => r
    | Raise e => after (emitted r) (handler e (files r))
    end.

(** [for x in xs: body] *)
Fixpoint for_each {A} (xs : list A) (body : A → M unit) : M unit :=
  match xs with
  | [] => ret tt
  | x :: xs' => body x;; for_each xs' body
  end.

(** A loop that rebinds an accumulator. *)
Fixpoint for_fold {A S} (xs : list A) (acc : S) (body : S → A → M S) : M S :=
  match xs with
  | [] => ret acc
  | x :: xs' => acc' ← body acc x; for_fold xs' acc' body
  end.

(** ** Python operations *)

(** [RICH_CONSOLE.print(text)] *)
Definition console_print (text : string) : M unit := emit (Print text).

(** [os.path.exists(path)] *)
Definition path_exists (path : string) : M bool :=
  λ fs, {| files := fs; emitted := []; result := Ok (bool_decide (is_Some (fs !! path))) |}.

(** [with open(path, "r") as f: ... f.read()] *)
Definition read_file (path : string) : M string :=
  λ fs,
    match fs !! path with
    | Some content => {| files := fs; emitted := [OpenRead path]; result := Ok content |}
    | None => {| files := fs; emitted := []; result := Raise (FileNotFoundError path) |}
    end.

(** [with open(path, "w") as f: f.write(content)] *)
Definition write_file (path content : string) : M unit :=
  λ fs, {| files := <[path := content]> fs; emitted := [OpenWrite path]; result := Ok tt |}.

(** [assert cond] *)
Definition py_assert (cond : bool) : M unit :=
  if cond then ret tt else raise AssertionError.

(** [d[key]] *)
Definition getitem {V} (d : gmap string V) (key : string) : M V :=
  match d !! key with
  | Some v => ret v
  | None => raise (KeyError key)
  end.

(** [a > b]: defined between integers, [TypeError] on an object. *)
Definition py_gt (a b : jval) : M bool :=
  match a, b with
  | JInt x, JInt y => ret (bool_decide (x > y))
  | _, _ => raise TypeError
  end.

(** Truth value of a dict: a dict is true when it is not empty. *)
Definition truthy {V} (d : gmap string V) : bool := bool_decide (d ≠ ∅).

(** ** Collaborators *)

Class Collaborators : Type := {
  (** [json.load]: [None] is [json.decoder.JSONDecodeError]. *)
  json_load : string → option Costs;
  (** [json.dump(costs, f, indent=4)]: the text written. *)
  json_dump : Costs → string;
  (** [json.dumps(table, indent=4)] *)
  json_dumps : GasTable → string;
  (** [ape.Contract(address)] fails with this exception, if any. *)
  contract_failure : string → option exn;
  (** [registry.pool_count()] and [registry.pool_list(i)] *)
  registry_pool_count : ContractInstance → res nat;
  registry_pool_list : ContractInstance → nat → res string;
  (** [scripts.stableswap_pool_gas_calculator] *)
  gas_table_for_stableswap_pool : ContractInstance → Z → res GasTable;
  gas_table_for_stableswap_pool_in_block_range :
    ContractInstance → Z → Z → res GasTable;
  (** [scripts.get_calltrace_from_tx] and [scripts.call_tree_parser] *)
  call_tree : Type;
  rich_tree : Type;
  gas_cost : Type;
  calltree_of_tx : string → res call_tree;
  parse_as_tree : call_tree → list string → res rich_tree;
  avg_gas_cost_per_method_for_tx : ContractInstance → call_tree → res gas_cost;
  (** How the console renders what is printed. *)
  render_tree : rich_tree → string;
  render_gas_cost : gas_cost → string;
  render_contract : ContractInstance → string;
  render_exception : exn → string;
}.

(** What is written by [json.dump] is read back by [json.load]. *)
Definition json_roundtrip (E : Collaborators) : Prop :=
  ∀ costs : Costs, json_load (json_dump costs) = Some costs.

Section Program.
Context {E : Collaborators}.

Definition Contract (addr : string) : M ContractInstance :=
  match contract_failure addr with
  | Some e => raise e
  | None => ret {| address := addr |}
  end.

Definition _get_gas_table_for_stableswap_pool
    (pool : ContractInstance) (min_transactions : Z) : M GasTable :=
  emit (GasTableRequest pool min_transactions);;
  lift (gas_table_for_stableswap_pool pool min_transactions).

Definition _get_gas_table_for_stableswap_pool_in_block_range
    (pool : ContractInstance) (start_block end_block : Z) : M GasTable :=
  emit (GasTableRangeRequest pool start_block end_block);;
  lift (gas_table_for_stableswap_pool_in_block_range pool start_block end_block).

Definition _get_calltree (tx_hash : string) : M call_tree :=
  emit (CallTreeRequest tx_hash);;
  lift (calltree_of_tx tx_hash).

(** ** Constants *)

Definition MAIN_REGISTRY : string := "0x90E00ACe148ca3b23Ac1bC8C240C2a7Dd9c2d7f5".
Definition STABLESWAP_FACTORY : string := "0xB9fC157394Af804a3578134A6585C0dc9cc990d4".
Definition CRYPTOSWAP_REGISTRY : string := "0x8F942C20D02bEfc377D41445793068908E2250D0".
Definition CRYPTOSWAP_FACTORY : string := "0xF18056Bbd320E96A48e3Fbf8bC061322531aac99".
Definition STABLESWAP_GAS_TABLE_FILE : string := "stableswap_pools_gas_estimates.json".

(** ** [__get_pools] *)

Definition __get_pools (registry : string) : M (list string) :=
  registry ← Contract registry;
  pool_count ← lift (registry_pool_count registry);
  for_fold (seq 0 pool_count) []
    (λ (pools : list string) (i : nat),
       pool ← lift (registry_pool_list registry i);
       ret (if bool_decide (pool ∈ pools) then pools else pools ++ [pool])).

(** Lines 37-38, the step of that loop on one listed pool. *)
Definition keep_new (pools : list string) (pool : string) : list string :=
  if bool_decide (pool ∈ pools) then pools else pools ++ [pool].

(** ** [__append_gas_table_to_output_file] *)

(** Lines 50-56: the cached costs, [{}] when the file is missing or does not
    parse. *)
Definition load_costs (output_file_name : string) : M Costs :=
  file_exists ← path_exists output_file_name;
  if file_exists : bool then
    content ← read_file output_file_name;
    match json_load content with
    | Some costs => ret costs
    | None => ret ∅
    end
  else ret ∅.

Definition __append_gas_table_to_output_file
    (output_file_name pool_addr : string) (decoded_gas_table : GasTable) : M unit :=
  console_print ("saving gas costs to file [green]" +:+ output_file_name +:+ "...");;
  costs ← load_costs output_file_name;
  match costs !! pool_addr with
  | Some stored =>
      py_assert (bool_decide (is_Some (stored !! "count")));;
      new_count ← getitem decoded_gas_table "count";
      old_count ← getitem stored "count";
      more ← py_gt new_count old_count;
      if more : bool then
        write_file output_file_name (json_dump (<[pool_addr := decoded_gas_table]> costs))
      else ret tt
  | None => ret tt
  end.

(** What the cache file holds for a reader of lines 50-56, as a function of
    the file system. *)
Definition cached_costs (fs : FileSystem) (output_file_name : string) : Costs :=
  match fs !! output_file_name with
  | Some content => default ∅ (json_load content)
  | None => ∅
  end.

(** The events every merge starts with: the console line of line 47 and,
    when the file exists, its opening for reading. *)
Definition banner (output_file_name : string) : event :=
  Print ("saving gas costs to file [green]" +:+ output_file_name +:+ "...").

Definition reads (fs : FileSystem) (output_file_name : string) : list event :=
  match fs !! output_file_name with
  | Some _ => [OpenRead output_file_name]
  | None => []
  end.

(** The integer ["count"] of a table, if it has one. *)
Definition table_count (table : GasTable) : option Z :=
  match table !! "count" with
  | Some (JInt n) => Some n
  | _ => None
  end.

(** The ["count"] stored for an address in the cache file. *)
Definition stored_count (fs : FileSystem) (output_file_name pool_addr : string)
    : option Z :=
  match cached_costs fs output_file_name !! pool_addr with
  | Some stored => table_count stored
  | None => None
  end.

(** The new table has more evidence than the entry cached for the address:
    there is such an entry, and its integer ["count"] is strictly below the
    new table's. *)
Definition outranks (fs : FileSystem) (output_file_name pool_addr : string)
    (table : GasTable) : Prop :=
  ∃ (stored : GasTable) (old new : Z),
    cached_costs fs output_file_name !! pool_addr = Some stored ∧
    table_count stored = Some old ∧
    table_count table = Some new ∧
    old < new.

(** Successive merges, each one a call of its own: an exception ends that
    call and the next one starts from the files it left. *)
Fixpoint merges (ops : list (string * string * GasTable)) (fs : FileSystem)
    : FileSystem :=
  match ops with
  | [] => fs
  | (output_file_name, pool_addr, table) :: ops' =>
      merges ops'
        (files (run (__append_gas_table_to_output_file output_file_name pool_addr table) fs))
  end.

(** Merges that all go to the cache file of the commands. *)
Definition cache_ops (ops : list (string * string * GasTable)) : Prop :=
  Forall (λ op, op.1.1 = STABLESWAP_GAS_TABLE_FILE) ops.

(** ** [stableswap-pools]: scan all pools of the registries *)

(** Lines 103-106. *)
Definition collect_stableswap_pools : M (list string) :=
  pools ← for_fold [MAIN_REGISTRY; STABLESWAP_FACTORY] []
             (λ (pools : list string) (registry : string),
                found ← __get_pools registry;
                ret (pools ++ found));
  ret (elements (list_to_set pools : gset string)).

(** Lines 111-128, the body of the loop over the pools. *)
Definition scan_pool (min_transactions : Z) (pool_addr : string) : M unit :=
  pool ← Contract pool_addr;
  try_except
    (decoded_gas_table ← _get_gas_table_for_stableswap_pool pool min_transactions;
     if truthy decoded_gas_table then
       __append_gas_table_to_output_file
         STABLESWAP_GAS_TABLE_FILE pool_addr decoded_gas_table
     else ret tt)
    (λ e,
       console_print (render_exception e);;
       console_print ("Error getting gas costs for [red]" +:+ pool_addr +:+ ". Moving on ...")).

Definition _get_gas_costs_for_stableswap_registry_pools (min_transactions : Z)
    : M unit :=
  console_print "Getting all stableswap pools ...";;
  pools ← collect_stableswap_pools;
  console_print ("... found [red]" +:+ pretty (length pools) +:+ " pools.");;
  for_each pools (scan_pool min_transactions).

(** What the handler of lines 124-128 prints for an exception. *)
Definition reported (e : exn) (pool_addr : string) : list event :=
  [Print (render_exception e);
   Print ("Error getting gas costs for [red]" +:+ pool_addr +:+ ". Moving on ...")].

(** ** [stableswap-pool]: one pool over a block range *)

Definition _get_gas_costs_for_stableswap_pool
    (pool : string) (start_block end_block : Z) : M unit :=
  pool ← Contract pool;
  decoded_gas_table ←
    _get_gas_table_for_stableswap_pool_in_block_range pool start_block end_block;
  if truthy decoded_gas_table then
    __append_gas_table_to_output_file
      STABLESWAP_GAS_TABLE_FILE (address pool) decoded_gas_table;;
    console_print (json_dumps decoded_gas_table)
  else ret tt.

(** ** [stableswap-pool-tx]: one transaction, read only *)

Definition _get_gas_costs_tx (contractaddr tx : string) : M unit :=
  contract ← Contract contractaddr;
  call_tree ← _get_calltree tx;
  rich_call_tree ← lift (parse_as_tree call_tree [address contract]);
  console_print ("Call trace for [bold blue]'" +:+ tx +:+ "'[/]");;
  console_print (render_tree rich_call_tree);;
  console_print
    (String "010"%char "Gas consumed per method for [red]'"
       +:+ render_contract contract +:+ "':");;
  gas_cost ← lift (avg_gas_cost_per_method_for_tx contract call_tree);
  console_print (render_gas_cost gas_cost).

End Program.

(** ** Reference collaborators

    An in-memory stand-in for the imported modules, used to run the commands
    on concrete inputs: a codec that writes a cache as the binary digits of
    its code, two registries listing the same three entries, and a gas-table
    calculator that finds nothing for pool 0xA, fails for pool 0xB and
    reports [min_transactions] samples for any other pool. *)
Module Reference.

Fixpoint text_of_positive (p : positive) : string :=
  match p with
  | xH => EmptyString
  | xO q => String "0"%char (text_of_positive q)
  | xI q => String "1"%char (text_of_positive q)
  end.

Fixpoint positive_of_text (text : string) : option positive :=
  match text with
  | EmptyString => Some xH
  | String c rest =>
      match positive_of_text rest with
      | Some q =>
          if Ascii.eqb c "0"%char then Some (xO q)
          else if Ascii.eqb c "1"%char then Some (xI q)
          else None
      | None => None
      end
  end.

Definition dump (costs : Costs) : string := text_of_positive (encode costs).

Definition load (text : string) : option Costs :=
  match positive_of_text text with
  | Some p => decode p
  | None => None
  end.

Definition listed : list string := ["0xA"; "0xB"; "0xA"].

Definition gas_table (pool : ContractInstance) (samples : Z) : res GasTable :=
  if bool_decide (address pool = "0xA") then Ok ∅
  else if bool_decide (address pool = "0xB") then Raise (UpstreamError "timeout")
  else Ok {[ "count" := JInt samples ]}.

(** A cache with two entries, and a file system holding it. *)
Definition sample_costs : Costs :=
  {[ "0xC" := {[ "count" := JInt 500 ]}; "0xD" := {[ "count" := JInt 3 ]} ]}.

Definition sample_files : FileSystem :=
  {[ "stableswap_pools_gas_estimates.json" := dump sample_costs ]}.

Definition collaborators : Collaborators := {|
  json_load := load;
  json_dump := dump;
  json_dumps := λ table, dump {[ "" := table ]};
  contract_failure := λ _, None;
  registry_pool_count := λ _, Ok (length listed);
  registry_pool_list := λ _ i, Ok (nth i listed "");
  gas_table_for_stableswap_pool := gas_table;
  gas_table_for_stableswap_pool_in_block_range :=
    λ pool start_block end_block, gas_table pool (end_block - start_block);
  call_tree := list string;
  rich_tree := list string;
  gas_cost := Z;
  calltree_of_tx := λ tx, Ok [tx];
  parse_as_tree := λ tree addresses, Ok (addresses ++ tree);
  avg_gas_cost_per_method_for_tx := λ _ tree, Ok (Z.of_nat (length tree));
  render_tree := λ tree, String.concat "/" tree;
  render_gas_cost := pretty;
  render_contract := address;
  render_exception := λ _, "Traceback";
|}.

End Reference.

(** ** Collaborators that fail

    The reference collaborators, with chosen contracts that do not resolve
    and a chosen behaviour of [registry.pool_list]. *)
Module Faulty.

Definition collaborators
    (contracts : string → option exn)
    (pool_at : ContractInstance → nat → res string) : Collaborators := {|
  json_load := Reference.load;
  json_dump := Reference.dump;
  json_dumps := λ table, Reference.dump {[ EmptyString := table ]};
  contract_failure := contracts;
  registry_pool_count := λ _, Ok (length Reference.listed);
  registry_pool_list := pool_at;
  gas_table_for_stableswap_pool := Reference.gas_table;
  gas_table_for_stableswap_pool_in_block_range :=
    λ pool start_block end_block, Reference.gas_table pool (end_block - start_block);
  call_tree := list string;
  rich_tree := list string;
  gas_cost := Z;
  calltree_of_tx :=
    λ tx, if bool_decide (tx = "0x0") then Raise (KeyError "tx") else Ok [tx];
  parse_as_tree := λ tree addresses, Ok (addresses ++ tree);
  avg_gas_cost_per_method_for_tx := λ _ tree, Ok (Z.of_nat (length tree));
  render_tree := λ tree, String.concat "/" tree;
  render_gas_cost := pretty;
  render_contract := address;
  render_exception := λ _, "Traceback";
|}.

(** Pool 0xB does not resolve. *)
Definition unresolved (addr : string) : option exn :=
  if bool_decide (addr = "0xB") then Some (UpstreamError "no abi") else None.

(** No contract resolves. *)
Definition offline (addr : string) : option exn := Some (UpstreamError "offline").

Definition listing (registry : ContractInstance) (i : nat) : res string :=
  Ok (nth i Reference.listed EmptyString).

(** The second entry of every registry cannot be read. *)
Definition broken_listing (registry : ContractInstance) (i : nat) : res string :=
  if bool_decide (i = 1%nat) then Raise (UpstreamError "reverted")
  else Ok (nth i Reference.listed EmptyString).

End Faulty.

(** * Properties *)

(** ** The merge, step by step *)

Section Merge.
Context {E : Collaborators}.

Lemma run_bind_ok {A B} (m : M A) (k : A → M B) fs fs1 events a :
  run m fs = {| files := fs1; emitted := events; result := Ok a |} →
  run (bind m k) fs = after events (run (k a) fs1).
Proof. unfold run, bind. by intros ->. Qed.

Lemma run_bind_raise {A B} (m : M A) (k : A → M B) fs fs1 events e :
  run m fs = {| files := fs1; emitted := events; result := Raise e |} →
  run (bind m k) fs = {| files := fs1; emitted := events; result := Raise e |}.
Proof. unfold run, bind. by intros ->. Qed.

Lemma after_nil {A} (r : Run A) : after [] r = r.
Proof. by destruct r. Qed.

Lemma after_after {A} (xs ys : list event) (r : Run A) :
  after xs (after ys r) = after (xs ++ ys) r.
Proof. unfold after. cbn. by rewrite app_assoc. Qed.

Lemma load_costs_run fs name :
  run (load_costs name) fs =
    {| files := fs; emitted := reads fs name; result := Ok (cached_costs fs name) |}.
Proof.
  unfold load_costs.
  erewrite run_bind_ok by reflexivity. rewrite after_nil.
  unfold cached_costs, reads.
  destruct (fs !! name) as [content|] eqn:Hfile.
  - rewrite bool_decide_eq_true_2 by eauto.
    erewrite run_bind_ok; last by (unfold run, read_file; rewrite Hfile).
    by destruct (json_load content).
  - by rewrite bool_decide_eq_false_2 by (by intros [? ?]).
Qed.

(** The merge in normal form: what it leaves, emits and returns, by cases on
    the cached entry and the two counts. *)
Lemma append_run fs name addr (table : GasTable) :
  run (__append_gas_table_to_output_file name addr table) fs =
    let costs := cached_costs fs name in
    let quiet (r : res unit) :=
      {| files := fs; emitted := banner name :: reads fs name; result := r |} in
    match costs !! addr with
    | None => quiet (Ok tt)
    | Some stored =>
        match stored !! "count", table !! "count" with
        | None, _ => quiet (Raise AssertionError)
        | Some _, None => quiet (Raise (KeyError "count"))
        | Some (JInt old), Some (JInt new) =>
            if bool_decide (new > old) then
              {| files := <[name := json_dump (<[addr := table]> costs)]> fs;
                 emitted := banner name :: reads fs name ++ [OpenWrite name];
                 result := Ok tt |}
            else quiet (Ok tt)
        | Some _, Some _ => quiet (Raise TypeError)
        end
    end.
Proof.
  unfold __append_gas_table_to_output_file.
  erewrite run_bind_ok by reflexivity.
  erewrite run_bind_ok by apply load_costs_run.
  rewrite after_after. fold (banner name). cbn zeta.
  destruct (cached_costs fs name !! addr) as [stored|];
    [|by unfold after; cbn; rewrite app_nil_r].
  unfold py_assert, getitem, py_gt.
  destruct (stored !! "count") as [old|] eqn:Hold;
    [|by unfold after; cbn; rewrite app_nil_r].
  destruct (table !! "count") as [new|] eqn:Hnew;
    [|by unfold after; cbn; rewrite app_nil_r; destruct old].
  destruct new as [new|], old as [old|];
    try by unfold after; cbn; rewrite app_nil_r.
  unfold after. cbn.
  by destruct (bool_decide (new > old)); cbn; rewrite ?app_nil_r.
Qed.

Lemma table_count_Some (table : GasTable) n :
  table_count table = Some n ↔ table !! "count" = Some (JInt n).
Proof.
  unfold table_count. destruct (table !! "count") as [[]|]; naive_solver.
Qed.

(** Either the new table outranks the cached entry and the file is rewritten
    with that one key rebound, or nothing is written at all. *)
Lemma append_cases fs name addr (table : GasTable) :
  let r := run (__append_gas_table_to_output_file name addr table) fs in
  (outranks fs name addr table ∧
   files r = <[name := json_dump (<[addr := table]> (cached_costs fs name))]> fs ∧
   emitted r = banner name :: reads fs name ++ [OpenWrite name] ∧
   result r = Ok tt)
  ∨ (¬ outranks fs name addr table ∧
     files r = fs ∧
     emitted r = banner name :: reads fs name).
Proof.
  cbn zeta. rewrite append_run. cbn zeta. unfold outranks.
  destruct (cached_costs fs name !! addr) as [stored|] eqn:Hstored;
    [|by right; split; [intros (? & ? & ? & [=] & _)|]].
  assert (∀ P : Prop,
    (∀ old new, stored !! "count" = Some (JInt old) →
                table !! "count" = Some (JInt new) → old < new → P) →
    (∃ (stored' : GasTable) (old new : Z),
        Some stored = Some stored' ∧ table_count stored' = Some old ∧
        table_count table = Some new ∧ old < new) → P) as Hinv.
  { intros P HP (? & old & new & [= <-] & Hc1 & Hc2 & ?).
    apply table_count_Some in Hc1, Hc2. eauto. }
  destruct (stored !! "count") as [old|] eqn:Hold;
    [|by right; split; [intros Hex; refine (Hinv False _ Hex); intros; congruence|]].
  destruct (table !! "count") as [new|] eqn:Hnew;
    [|by right; split; [intros Hex; refine (Hinv False _ Hex); intros; congruence|destruct old]].
  destruct new as [new|], old as [old|];
    try by right; split; [intros Hex; refine (Hinv False _ Hex); intros; congruence|].
  case_bool_decide as Hgt.
  - left. split; [|done]. exists stored, old, new.
    rewrite !table_count_Some. repeat split; [done..|lia].
  - right. split; [|done]. intros Hex. refine (Hinv False _ Hex).
    intros old' new' ???.
    assert (old' = old ∧ new' = new) as [-> ->] by (split; congruence). lia.
Qed.

Lemma cached_costs_written fs name (costs : Costs) :
  json_roundtrip E →
  cached_costs (<[name := json_dump costs]> fs) name = costs.
Proof.
  intros Hrt. unfold cached_costs. by rewrite lookup_insert_eq, Hrt.
Qed.

Lemma cached_costs_other fs name name' content :
  name' ≠ name →
  cached_costs (<[name' := content]> fs) name = cached_costs fs name.
Proof.
  intros Hne. unfold cached_costs. by rewrite lookup_insert_ne.
Qed.

Lemma outranks_inv fs name addr (table stored : GasTable) :
  outranks fs name addr table →
  cached_costs fs name !! addr = Some stored →
  ∃ old new, table_count stored = Some old ∧ table_count table = Some new ∧ old < new.
Proof.
  intros (stored' & old & new & Hs & ? & ? & ?) Hstored.
  rewrite Hstored in Hs. injection Hs as <-. eauto.
Qed.

(** A table never outranks itself. *)
Lemma outranks_irrefl fs name addr (table : GasTable) :
  cached_costs fs name !! addr = Some table → ¬ outranks fs name addr table.
Proof.
  intros Hstored Hout.
  destruct (outranks_inv _ _ _ _ _ Hout Hstored) as (old & new & H1 & H2 & ?).
  rewrite H1 in H2. injection H2 as ->. lia.
Qed.

(** One merge, into any file and for any address, seen from one entry. *)
Lemma append_entry_step fs name addr name' addr' (table stored : GasTable) :
  json_roundtrip E →
  cached_costs fs name !! addr = Some stored →
  let fs' := files (run (__append_gas_table_to_output_file name' addr' table) fs) in
  cached_costs fs' name !! addr = Some stored
  ∨ (cached_costs fs' name !! addr = Some table ∧
     ∃ old new, table_count stored = Some old ∧ table_count table = Some new ∧
                old < new).
Proof.
  intros Hrt Hstored fs'. subst fs'.
  destruct (append_cases fs name' addr' table)
    as [(Hout & -> & _)|(_ & -> & _)]; [|by left].
  destruct (decide (name' = name)) as [->|Hname];
    [|left; by rewrite cached_costs_other].
  rewrite cached_costs_written by done.
  destruct (decide (addr' = addr)) as [->|Haddr];
    [|left; by rewrite lookup_insert_ne].
  right. rewrite lookup_insert_eq. split; [done|].
  by eapply outranks_inv.
Qed.

Lemma stored_count_Some fs name addr n :
  stored_count fs name addr = Some n ↔
  ∃ stored : GasTable,
    cached_costs fs name !! addr = Some stored ∧ table_count stored = Some n.
Proof.
  unfold stored_count.
  destruct (cached_costs fs name !! addr) as [stored|].
  - split; [by eauto|]. by intros (? & [= <-] & ?).
  - split; [done|]. by intros (? & [=] & _).
Qed.

(** Successive merges keep an entry present and never lower its count. *)
Lemma merges_stored_count ops fs name addr c :
  json_roundtrip E →
  stored_count fs name addr = Some c →
  ∃ c', stored_count (merges ops fs) name addr = Some c' ∧ c ≤ c'.
Proof.
  intros Hrt. revert fs c.
  induction ops as [|[[name' addr'] table] ops IH]; intros fs c Hc; cbn.
  - exists c. split; [done|lia].
  - apply stored_count_Some in Hc as (stored & Hstored & Hcount).
    destruct (append_entry_step fs name addr name' addr' table stored Hrt Hstored)
      as [Hkept|(Hnew & old & new & Hold & Hcnew & Hlt)].
    + apply IH. apply stored_count_Some. eauto.
    + assert (old = c) as -> by congruence.
      assert (stored_count
                (files (run (__append_gas_table_to_output_file name' addr' table) fs))
                name addr = Some new) as Hstep
        by (apply stored_count_Some; eauto).
      destruct (IH _ _ Hstep) as (c' & Hc' & ?).
      exists c'. split; [done|lia].
Qed.

(** A cache file that does not parse is read as an empty cache, and an
    empty cache has no entry to outrank: the merge returns normally and the
    file keeps its content. *)
Lemma append_on_unparsable fs name content addr (table : GasTable) :
  fs !! name = Some content →
  json_load content = None →
  run (__append_gas_table_to_output_file name addr table) fs =
    {| files := fs; emitted := [banner name; OpenRead name]; result := Ok tt |}.
Proof.
  intros Hfile Hparse. rewrite append_run. cbn zeta.
  unfold cached_costs, reads. by rewrite Hfile, Hparse.
Qed.

End Merge.

(** ** The claims about the merge *)

Section MergeClaims.
Context {E : Collaborators}.

(** C1. The design asks that a merge create the entry when the address has
    none.  The code does not: merging any table for any address while no
    cache file exists returns normally, prints its console line, and leaves
    the file system without the file. *)
Theorem first_merge_creates_no_entry name addr (table : GasTable) :
  run (__append_gas_table_to_output_file name addr table) ∅ =
    {| files := ∅; emitted := [banner name]; result := Ok tt |}.
Proof. by rewrite append_run. Qed.

(** C3. For an address whose cached entry has count [c]: a merge of a table
    whose count is at most [c] leaves the file system as it was, and after
    any sequence of merges the address still has an entry, with a count that
    is at least [c]. *)
Theorem stored_count_never_decreases fs name addr c :
  json_roundtrip E →
  stored_count fs name addr = Some c →
  (∀ (table : GasTable) new,
     table_count table = Some new → new ≤ c →
     files (run (__append_gas_table_to_output_file name addr table) fs) = fs)
  ∧ (∀ ops, ∃ c', stored_count (merges ops fs) name addr = Some c' ∧ c ≤ c').
Proof.
  intros Hrt Hc. split; [|by intros ops; apply merges_stored_count].
  intros table new Hnew Hle.
  destruct (append_cases fs name addr table) as [(Hout & _)|(_ & -> & _)]; [|done].
  apply stored_count_Some in Hc as (stored & Hstored & Hcount).
  destruct (outranks_inv _ _ _ _ _ Hout Hstored) as (old & new' & ? & ? & ?).
  assert (old = c ∧ new' = new) as [-> ->] by (split; congruence). lia.
Qed.

(** C4. Merging the same table for the same address a second time leaves
    the file system the first merge left. *)
Theorem remerge_is_noop fs name addr (table : GasTable) :
  json_roundtrip E →
  let once := files (run (__append_gas_table_to_output_file name addr table) fs) in
  files (run (__append_gas_table_to_output_file name addr table) once) = once.
Proof.
  intros Hrt once.
  destruct (append_cases once name addr table) as [(Hout & _)|(_ & -> & _)]; [|done].
  exfalso. subst once.
  destruct (append_cases fs name addr table) as [(_ & Hfs & _)|(Hnot & Hfs & _)];
    rewrite Hfs in Hout; [|done].
  revert Hout. apply outranks_irrefl.
  by rewrite cached_costs_written, lookup_insert_eq.
Qed.

(** C7. When the new table outranks the cached entry, the file is rewritten
    with the parsed costs in which only that address is rebound: read back,
    the address holds the new table and every other address holds what it
    held before. *)
Theorem merge_rebinds_one_key fs name addr (table : GasTable) :
  json_roundtrip E →
  outranks fs name addr table →
  let r := run (__append_gas_table_to_output_file name addr table) fs in
  files r = <[name := json_dump (<[addr := table]> (cached_costs fs name))]> fs
  ∧ cached_costs (files r) name !! addr = Some table
  ∧ ∀ other, other ≠ addr →
      cached_costs (files r) name !! other = cached_costs fs name !! other.
Proof.
  intros Hrt Hout r. subst r.
  destruct (append_cases fs name addr table) as [(_ & -> & _)|(Hnot & _)]; [|done].
  split; [done|]. rewrite cached_costs_written by done.
  split; [by rewrite lookup_insert_eq|].
  intros other Hne. by rewrite lookup_insert_ne.
Qed.

(** C9. The merge opens the cache file for writing when the address has a
    cached entry whose count is strictly below the new table's, and only
    then: whenever that fails (the address being absent included) no file is
    opened for writing and the file system is left as it was. *)
Theorem file_written_only_when_outranked fs name addr (table : GasTable) :
  let r := run (__append_gas_table_to_output_file name addr table) fs in
  (outranks fs name addr table → written_paths (emitted r) = [name])
  ∧ (¬ outranks fs name addr table →
       written_paths (emitted r) = [] ∧ files r = fs)
  ∧ (cached_costs fs name !! addr = None →
       written_paths (emitted r) = [] ∧ files r = fs).
Proof.
  cbn zeta.
  assert (cached_costs fs name !! addr = None → ¬ outranks fs name addr table)
    as Habsent.
  { intros Hnone (? & ? & ? & Hsome & _). congruence. }
  destruct (append_cases fs name addr table)
    as [(Hout & _ & -> & _)|(Hnot & -> & ->)].
  - split; [|split; [done|by intros ?%Habsent]].
    intros _. unfold reads. by destruct (fs !! name).
  - assert (written_paths (banner name :: reads fs name) = []) as ->
      by (unfold reads; by destruct (fs !! name)).
    by repeat split.
Qed.

End MergeClaims.

(** ** The commands, step by step *)

Section Commands.
Context {E : Collaborators}.

Lemma run_try_ok {A} (body : M A) handler fs fs1 events a :
  run body fs = {| files := fs1; emitted := events; result := Ok a |} →
  run (try_except body handler) fs =
    {| files := fs1; emitted := events; result := Ok a |}.
Proof. unfold run, try_except. by intros ->. Qed.

Lemma run_try_raise {A} (body : M A) handler fs fs1 events e :
  run body fs = {| files := fs1; emitted := events; result := Raise e |} →
  run (try_except body handler) fs = after events (run (handler e) fs1).
Proof. unfold run, try_except. by intros ->. Qed.

Lemma Contract_ok addr fs :
  contract_failure addr = None →
  run (Contract addr) fs =
    {| files := fs; emitted := []; result := Ok {| address := addr |} |}.
Proof. unfold Contract. by intros ->. Qed.

Lemma Contract_raise addr fs e :
  contract_failure addr = Some e →
  run (Contract addr) fs = {| files := fs; emitted := []; result := Raise e |}.
Proof. unfold Contract. by intros ->. Qed.

Lemma get_gas_table_run pool min_transactions fs :
  run (_get_gas_table_for_stableswap_pool pool min_transactions) fs =
    {| files := fs; emitted := [GasTableRequest pool min_transactions];
       result := gas_table_for_stableswap_pool pool min_transactions |}.
Proof.
  unfold _get_gas_table_for_stableswap_pool, run, bind, emit, lift, after. cbn.
  by destruct (gas_table_for_stableswap_pool pool min_transactions).
Qed.

Lemma get_gas_table_in_block_range_run pool start_block end_block fs :
  run (_get_gas_table_for_stableswap_pool_in_block_range pool start_block end_block) fs =
    {| files := fs; emitted := [GasTableRangeRequest pool start_block end_block];
       result := gas_table_for_stableswap_pool_in_block_range pool start_block end_block |}.
Proof.
  unfold _get_gas_table_for_stableswap_pool_in_block_range, run, bind, emit, lift, after.
  cbn. by destruct (gas_table_for_stableswap_pool_in_block_range _ _ _).
Qed.

(** The merge asks no gas-table computation. *)
Lemma append_requests_nothing fs name addr (table : GasTable) :
  requested_pools (emitted (run (__append_gas_table_to_output_file name addr table) fs)) = [].
Proof.
  destruct (append_cases fs name addr table) as [(_ & _ & -> & _)|(_ & _ & ->)];
    unfold reads; by destruct (fs !! name).
Qed.

(** One pool of the scan whose contract resolves: the step returns normally
    whatever the computation and the merge did, and asked one computation,
    for that pool. *)
Lemma scan_pool_ok min_transactions pool_addr fs :
  contract_failure pool_addr = None →
  let r := run (scan_pool min_transactions pool_addr) fs in
  result r = Ok tt ∧ requested_pools (emitted r) = [pool_addr].
Proof.
  intros Hc r. subst r. unfold scan_pool.
  erewrite run_bind_ok by by apply Contract_ok. rewrite after_nil.
  destruct (gas_table_for_stableswap_pool {| address := pool_addr |} min_transactions)
    as [table|e] eqn:Htable.
  - destruct (truthy table) eqn:Htruthy.
    + pose proof (append_requests_nothing fs STABLESWAP_GAS_TABLE_FILE pool_addr table)
        as Hreq.
      destruct (run (__append_gas_table_to_output_file
                       STABLESWAP_GAS_TABLE_FILE pool_addr table) fs)
        as [fs1 events [[]|e]] eqn:Hrun; cbn in Hreq.
      * erewrite run_try_ok.
        2:{ erewrite run_bind_ok by (rewrite get_gas_table_run, Htable; done).
            rewrite Htruthy, Hrun. done. }
        cbn. unfold requested_pools in *. cbn. by rewrite Hreq.
      * erewrite run_try_raise.
        2:{ erewrite run_bind_ok by (rewrite get_gas_table_run, Htable; done).
            rewrite Htruthy, Hrun. done. }
        cbn. split; [done|]. unfold requested_pools in *.
        rewrite omap_app, Hreq. done.
    + erewrite run_try_ok.
      2:{ erewrite run_bind_ok by (rewrite get_gas_table_run, Htable; done).
          rewrite Htruthy. done. }
      done.
  - erewrite run_try_raise.
    2:{ erewrite run_bind_raise by (rewrite get_gas_table_run, Htable; done). done. }
    done.
Qed.

Lemma result_bind_Ok {A B} (m : M A) (k : A → M B) fs b :
  result (run (bind m k) fs) = Ok b →
  ∃ a, result (run m fs) = Ok a ∧ result (run (k a) (files (run m fs))) = Ok b.
Proof.
  unfold run, bind. destruct (result (m fs)) as [a|e]; [|done].
  intros Hb. by exists a.
Qed.

Lemma silent_ret {A} (a : A) : silent (ret a).
Proof. done. Qed.

Lemma silent_lift {A} (r : res A) : silent (lift r).
Proof. done. Qed.

Lemma silent_bind {A B} (m : M A) (k : A → M B) :
  silent m → (∀ a, silent (k a)) → silent (bind m k).
Proof.
  intros Hm Hk fs. destruct (Hm fs) as [Hfs Hev].
  unfold run, bind in *. destruct (result (m fs)) as [a|e]; [|done].
  destruct (Hk a (files (m fs))) as [Hfs' Hev']. unfold run in *.
  cbn. rewrite Hfs', Hev, Hev'. done.
Qed.

Lemma silent_Contract addr : silent (Contract addr).
Proof. unfold Contract. by destruct (contract_failure addr). Qed.

Lemma silent_for_fold {A S} (xs : list A) (acc : S) body :
  (∀ acc x, silent (body acc x)) → silent (for_fold xs acc body).
Proof.
  intros Hbody. revert acc.
  induction xs as [|x xs IH]; intros acc; cbn; [apply silent_ret|].
  apply silent_bind; [apply Hbody|apply IH].
Qed.

Lemma silent___get_pools registry : silent (__get_pools registry).
Proof.
  unfold __get_pools.
  apply silent_bind; [apply silent_Contract|]. intros contract.
  apply silent_bind; [apply silent_lift|]. intros n.
  apply silent_for_fold. intros pools i.
  apply silent_bind; [apply silent_lift|]. intros pool. apply silent_ret.
Qed.

Lemma silent_collect_stableswap_pools : silent collect_stableswap_pools.
Proof.
  unfold collect_stableswap_pools.
  apply silent_bind; [|intros; apply silent_ret].
  apply silent_for_fold. intros pools registry.
  apply silent_bind; [apply silent___get_pools|]. intros; apply silent_ret.
Qed.

(** What holds of the accumulator before a loop and is kept by its body
    holds of what the loop returns. *)
Lemma for_fold_invariant {A S} (P : S → Prop) (xs : list A) body :
  (∀ acc x fs acc', P acc → result (run (body acc x) fs) = Ok acc' → P acc') →
  ∀ acc fs acc',
    P acc → result (run (for_fold xs acc body) fs) = Ok acc' → P acc'.
Proof.
  intros Hbody. induction xs as [|x xs IH]; intros acc fs acc' Hacc; cbn.
  - by intros [= <-].
  - intros (acc1 & Hx & Hrest)%result_bind_Ok. eauto.
Qed.

Lemma __get_pools_NoDup registry fs pools :
  result (run (__get_pools registry) fs) = Ok pools → NoDup pools.
Proof.
  unfold __get_pools.
  intros (contract & _ & (n & _ & Hloop)%result_bind_Ok)%result_bind_Ok.
  revert Hloop. apply for_fold_invariant; [|apply NoDup_nil_2].
  clear. intros acc i fs acc' Hacc (pool & _ & [= <-])%result_bind_Ok.
  case_bool_decide as Hin; [done|].
  apply NoDup_app. split; [done|]. split; [|apply NoDup_singleton].
  intros x Hx ->%list_elem_of_singleton. done.
Qed.

Lemma collect_stableswap_pools_NoDup fs pools :
  result (run collect_stableswap_pools fs) = Ok pools → NoDup pools.
Proof.
  unfold collect_stableswap_pools.
  intros (found & _ & [= <-])%result_bind_Ok. apply NoDup_elements.
Qed.

(** The loop over pools whose contracts all resolve runs to its end and
    asks one computation per pool, in order. *)
Lemma scan_loop_ok min_transactions pools fs :
  (∀ pool_addr, pool_addr ∈ pools → contract_failure pool_addr = None) →
  let r := run (for_each pools (scan_pool min_transactions)) fs in
  result r = Ok tt ∧ requested_pools (emitted r) = pools.
Proof.
  revert fs. induction pools as [|pool_addr pools IH]; intros fs Hok; [done|].
  cbn zeta. cbn [for_each].
  destruct (scan_pool_ok min_transactions pool_addr fs) as [Hres Hreq];
    [apply Hok; left|].
  destruct (run (scan_pool min_transactions pool_addr) fs)
    as [fs1 events [[]|e]] eqn:Hrun; [|done]. cbn in Hreq.
  erewrite run_bind_ok by exact Hrun.
  destruct (IH fs1) as [Hres' Hreq']; [intros; apply Hok; by right|].
  cbn. split; [done|].
  unfold requested_pools in *. by rewrite omap_app, Hreq, Hreq'.
Qed.

(** Whatever the contracts do, the loop asks computations for an initial
    segment of the pools. *)
Lemma scan_loop_prefix min_transactions pools fs :
  requested_pools (emitted (run (for_each pools (scan_pool min_transactions)) fs))
    `prefix_of` pools.
Proof.
  revert fs. induction pools as [|pool_addr pools IH]; intros fs; [done|].
  cbn [for_each].
  destruct (contract_failure pool_addr) as [e|] eqn:Hc.
  - assert (run (scan_pool min_transactions pool_addr) fs =
              {| files := fs; emitted := []; result := Raise e |}) as Hrun.
    { unfold scan_pool. erewrite run_bind_raise by by apply Contract_raise. done. }
    erewrite run_bind_raise by exact Hrun. apply prefix_nil.
  - destruct (scan_pool_ok min_transactions pool_addr fs Hc) as [Hres Hreq].
    destruct (run (scan_pool min_transactions pool_addr) fs)
      as [fs1 events [[]|e]] eqn:Hrun; [|done]. cbn in Hreq.
    erewrite run_bind_ok by exact Hrun. cbn.
    unfold requested_pools in *. rewrite omap_app, Hreq.
    apply (prefix_app [pool_addr]), IH.
Qed.

Lemma prefix_NoDup {A} (l k : list A) : l `prefix_of` k → NoDup k → NoDup l.
Proof. intros [rest ->] Hk. by apply NoDup_app in Hk as [? _]. Qed.

(** The whole scan, from the run of its first half. *)
Lemma scan_run min_transactions fs :
  run (_get_gas_costs_for_stableswap_registry_pools min_transactions) fs =
    match result (run collect_stableswap_pools fs) with
    | Ok pools =>
        after [Print "Getting all stableswap pools ...";
               Print ("... found [red]" +:+ pretty (length pools) +:+ " pools.")]
          (run (for_each pools (scan_pool min_transactions)) fs)
    | Raise e =>
        {| files := fs; emitted := [Print "Getting all stableswap pools ..."];
           result := Raise e |}
    end.
Proof.
  unfold _get_gas_costs_for_stableswap_registry_pools.
  erewrite run_bind_ok by reflexivity.
  destruct (silent_collect_stableswap_pools fs) as [Hfs Hev].
  destruct (run collect_stableswap_pools fs) as [fs1 events [pools|e]] eqn:Hrun;
    cbn in Hfs, Hev; subst fs1 events; cbn [result].
  - erewrite run_bind_ok by exact Hrun.
    erewrite run_bind_ok by reflexivity.
    by rewrite !after_after.
  - erewrite run_bind_raise by exact Hrun. done.
Qed.

Lemma truthy_empty {V} : truthy (∅ : gmap string V) = false.
Proof. unfold truthy. by apply bool_decide_eq_false_2; intros []. Qed.

Lemma scan_pool_empty min_transactions pool_addr fs :
  contract_failure pool_addr = None →
  gas_table_for_stableswap_pool {| address := pool_addr |} min_transactions = Ok ∅ →
  run (scan_pool min_transactions pool_addr) fs =
    {| files := fs;
       emitted := [GasTableRequest {| address := pool_addr |} min_transactions];
       result := Ok tt |}.
Proof.
  intros Hc Htable. unfold scan_pool.
  erewrite run_bind_ok by by apply Contract_ok. rewrite after_nil.
  erewrite run_try_ok; [done|].
  erewrite run_bind_ok by (rewrite get_gas_table_run, Htable; done).
  by rewrite truthy_empty.
Qed.

Lemma scan_loop_empty min_transactions pools fs :
  (∀ pool_addr, pool_addr ∈ pools →
     contract_failure pool_addr = None ∧
     gas_table_for_stableswap_pool {| address := pool_addr |} min_transactions = Ok ∅) →
  let r := run (for_each pools (scan_pool min_transactions)) fs in
  files r = fs ∧ opened_paths (emitted r) = [].
Proof.
  induction pools as [|pool_addr pools IH]; intros Hempty; [done|].
  cbn zeta. cbn [for_each].
  destruct (Hempty pool_addr) as [Hc Htable]; [by left|].
  erewrite run_bind_ok by by apply scan_pool_empty.
  destruct IH as [Hfs Hev]; [intros; apply Hempty; by right|].
  unfold after. cbn [files emitted]. split; [done|].
  unfold opened_paths in *. by rewrite omap_app, Hev.
Qed.

(** A merge that raises has written nothing. *)
Lemma append_raise_files fs name addr (table : GasTable) e :
  result (run (__append_gas_table_to_output_file name addr table) fs) = Raise e →
  files (run (__append_gas_table_to_output_file name addr table) fs) = fs.
Proof.
  destruct (append_cases fs name addr table) as [(_ & _ & _ & ->)|(_ & -> & _)];
    done.
Qed.

Lemma get_calltree_run tx fs :
  run (_get_calltree tx) fs =
    {| files := fs; emitted := [CallTreeRequest tx]; result := calltree_of_tx tx |}.
Proof.
  unfold _get_calltree, run, bind, emit, lift, after. cbn.
  by destruct (calltree_of_tx tx).
Qed.

Lemma untouched_ret {A} (a : A) : untouched (ret a).
Proof. done. Qed.

Lemma untouched_lift {A} (r : res A) : untouched (lift r).
Proof. done. Qed.

Lemma untouched_console_print text : untouched (console_print text).
Proof. done. Qed.

Lemma untouched_silent {A} (m : M A) : silent m → untouched m.
Proof. intros Hm fs. destruct (Hm fs) as [-> ->]. done. Qed.

Lemma untouched_bind {A B} (m : M A) (k : A → M B) :
  untouched m → (∀ a, untouched (k a)) → untouched (bind m k).
Proof.
  intros Hm Hk fs. destruct (Hm fs) as [Hfs Hev].
  unfold run, bind in *. destruct (result (m fs)) as [a|e]; [|done].
  destruct (Hk a (files (m fs))) as [Hfs' Hev']. unfold run in *.
  unfold after. cbn [files emitted]. split; [by rewrite Hfs'|].
  unfold opened_paths in *. by rewrite omap_app, Hev, Hev'.
Qed.

Lemma untouched__get_calltree tx : untouched (_get_calltree tx).
Proof. intros fs. by rewrite get_calltree_run. Qed.

Lemma untouched__get_gas_costs_tx contractaddr tx :
  untouched (_get_gas_costs_tx contractaddr tx).
Proof.
  unfold _get_gas_costs_tx.
  apply untouched_bind; [apply untouched_silent, silent_Contract|]. intros contract.
  apply untouched_bind; [apply untouched__get_calltree|]. intros tree.
  apply untouched_bind; [apply untouched_lift|]. intros rich.
  apply untouched_bind; [apply untouched_console_print|]. intros _.
  apply untouched_bind; [apply untouched_console_print|]. intros _.
  apply untouched_bind; [apply untouched_console_print|]. intros _.
  apply untouched_bind; [apply untouched_lift|]. intros cost.
  apply untouched_console_print.
Qed.

End Commands.

(** ** The claims about the commands *)

Section CommandClaims.
Context {E : Collaborators}.

(** C5. When the computation yields an empty table the merge is not called:
    a step of the scan and the single-pool command both return normally
    having emitted only the request for the computation, with the file
    system as it was; and a scan in which every pool yields an empty table
    leaves the file system as it was and opens no file. *)
Theorem empty_table_skips_merge fs :
  (∀ min_transactions pool_addr,
     contract_failure pool_addr = None →
     gas_table_for_stableswap_pool {| address := pool_addr |} min_transactions = Ok ∅ →
     run (scan_pool min_transactions pool_addr) fs =
       {| files := fs;
          emitted := [GasTableRequest {| address := pool_addr |} min_transactions];
          result := Ok tt |})
  ∧ (∀ pool start_block end_block,
       contract_failure pool = None →
       gas_table_for_stableswap_pool_in_block_range
         {| address := pool |} start_block end_block = Ok ∅ →
       run (_get_gas_costs_for_stableswap_pool pool start_block end_block) fs =
         {| files := fs;
            emitted := [GasTableRangeRequest {| address := pool |} start_block end_block];
            result := Ok tt |})
  ∧ (∀ min_transactions pools,
       result (run collect_stableswap_pools fs) = Ok pools →
       (∀ pool_addr, pool_addr ∈ pools →
          contract_failure pool_addr = None ∧
          gas_table_for_stableswap_pool
            {| address := pool_addr |} min_transactions = Ok ∅) →
       let r := run (_get_gas_costs_for_stableswap_registry_pools min_transactions) fs in
       files r = fs ∧ opened_paths (emitted r) = []).
Proof.
  split; [by intros; apply scan_pool_empty|]. split.
  - intros pool start_block end_block Hc Htable.
    unfold _get_gas_costs_for_stableswap_pool.
    erewrite run_bind_ok by by apply Contract_ok. rewrite after_nil.
    erewrite run_bind_ok
      by (rewrite get_gas_table_in_block_range_run, Htable; done).
    by rewrite truthy_empty.
  - intros min_transactions pools Hpools Hempty. cbn zeta.
    rewrite scan_run, Hpools.
    destruct (scan_loop_empty min_transactions pools fs Hempty) as [Hfs Hev].
    unfold after. cbn [files emitted result]. split; [done|].
    unfold opened_paths in *. by rewrite omap_app, Hev.
Qed.

(** C6. In the scan, a pool whose computation raises, or whose merge raises,
    is reported on the console and its step returns normally, and a scan
    whose pool contracts all resolve returns normally having asked the
    computation for every pool in turn, whatever the computations and merges
    did.  In the single-pool command an exception raised by the computation
    or by the merge is the command's own outcome. *)
Theorem scan_catches_single_pool_propagates fs :
  (∀ min_transactions pool_addr e,
     contract_failure pool_addr = None →
     gas_table_for_stableswap_pool {| address := pool_addr |} min_transactions = Raise e →
     run (scan_pool min_transactions pool_addr) fs =
       {| files := fs;
          emitted := GasTableRequest {| address := pool_addr |} min_transactions
                       :: reported e pool_addr;
          result := Ok tt |})
  ∧ (∀ min_transactions pool_addr (table : GasTable) e,
       contract_failure pool_addr = None →
       gas_table_for_stableswap_pool
         {| address := pool_addr |} min_transactions = Ok table →
       truthy table = true →
       result (run (__append_gas_table_to_output_file
                      STABLESWAP_GAS_TABLE_FILE pool_addr table) fs) = Raise e →
       let r := run (scan_pool min_transactions pool_addr) fs in
       result r = Ok tt ∧ files r = fs ∧
       ∃ before, emitted r = before ++ reported e pool_addr)
  ∧ (∀ min_transactions pools,
       result (run collect_stableswap_pools fs) = Ok pools →
       (∀ pool_addr, pool_addr ∈ pools → contract_failure pool_addr = None) →
       let r := run (_get_gas_costs_for_stableswap_registry_pools min_transactions) fs in
       result r = Ok tt ∧ requested_pools (emitted r) = pools)
  ∧ (∀ pool start_block end_block e,
       contract_failure pool = None →
       gas_table_for_stableswap_pool_in_block_range
         {| address := pool |} start_block end_block = Raise e →
       result (run (_get_gas_costs_for_stableswap_pool pool start_block end_block) fs)
         = Raise e)
  ∧ (∀ pool start_block end_block (table : GasTable) e,
       contract_failure pool = None →
       gas_table_for_stableswap_pool_in_block_range
         {| address := pool |} start_block end_block = Ok table →
       truthy table = true →
       result (run (__append_gas_table_to_output_file
                      STABLESWAP_GAS_TABLE_FILE pool table) fs) = Raise e →
       result (run (_get_gas_costs_for_stableswap_pool pool start_block end_block) fs)
         = Raise e).
Proof.
  split; [|split; [|split; [|split]]].
  - intros min_transactions pool_addr e Hc Htable. unfold scan_pool.
    erewrite run_bind_ok by by apply Contract_ok. rewrite after_nil.
    erewrite run_try_raise.
    2:{ erewrite run_bind_raise by (rewrite get_gas_table_run, Htable; done).
        done. }
    done.
  - intros min_transactions pool_addr table e Hc Htable Htruthy Hraise. cbn zeta.
    pose proof (append_raise_files _ _ _ _ _ Hraise) as Hfs.
    destruct (run (__append_gas_table_to_output_file
                     STABLESWAP_GAS_TABLE_FILE pool_addr table) fs)
      as [fs1 events r] eqn:Hrun. cbn in Hraise, Hfs. subst r fs1.
    unfold scan_pool.
    erewrite run_bind_ok by by apply Contract_ok. rewrite after_nil.
    erewrite run_try_raise.
    2:{ erewrite run_bind_ok by (rewrite get_gas_table_run, Htable; done).
        rewrite Htruthy, Hrun. done. }
    cbn. split; [done|]. split; [done|].
    by exists (GasTableRequest {| address := pool_addr |} min_transactions :: events).
  - intros min_transactions pools Hpools Hok. cbn zeta.
    rewrite scan_run, Hpools.
    destruct (scan_loop_ok min_transactions pools fs Hok) as [Hres Hreq].
    unfold after. cbn [files emitted result]. split; [done|].
    unfold requested_pools in *. by rewrite omap_app, Hreq.
  - intros pool start_block end_block e Hc Htable.
    unfold _get_gas_costs_for_stableswap_pool.
    erewrite run_bind_ok by by apply Contract_ok. rewrite after_nil.
    erewrite run_bind_raise
      by (rewrite get_gas_table_in_block_range_run, Htable; done). done.
  - intros pool start_block end_block table e Hc Htable Htruthy Hraise.
    destruct (run (__append_gas_table_to_output_file
                     STABLESWAP_GAS_TABLE_FILE pool table) fs)
      as [fs1 events r] eqn:Hrun. cbn in Hraise. subst r.
    unfold _get_gas_costs_for_stableswap_pool.
    erewrite run_bind_ok by by apply Contract_ok. rewrite after_nil.
    erewrite run_bind_ok
      by (rewrite get_gas_table_in_block_range_run, Htable; done).
    rewrite Htruthy. cbn [address].
    erewrite run_bind_raise by exact Hrun. done.
Qed.

(** C8. The single-transaction command leaves the file system as it was
    and opens no file, whatever its collaborators return; when they all
    succeed it returns normally having printed the call tree and the gas
    consumed per method. *)
Theorem tx_mode_leaves_cache_alone contractaddr tx fs :
  let r := run (_get_gas_costs_tx contractaddr tx) fs in
  files r = fs
  ∧ opened_paths (emitted r) = []
  ∧ ∀ tree rich cost,
      contract_failure contractaddr = None →
      calltree_of_tx tx = Ok tree →
      parse_as_tree tree [contractaddr] = Ok rich →
      avg_gas_cost_per_method_for_tx {| address := contractaddr |} tree = Ok cost →
      result r = Ok tt ∧
      printed (emitted r) =
        [ "Call trace for [bold blue]'" +:+ tx +:+ "'[/]";
          render_tree rich;
          String "010"%char "Gas consumed per method for [red]'"
            +:+ render_contract {| address := contractaddr |} +:+ "':";
          render_gas_cost cost ].
Proof.
  cbn zeta.
  destruct (untouched__get_gas_costs_tx contractaddr tx fs) as [Hfs Hev].
  split; [done|]. split; [done|].
  intros tree rich cost Hc Htree Hrich Hcost.
  unfold _get_gas_costs_tx.
  erewrite run_bind_ok by by apply Contract_ok. rewrite after_nil.
  erewrite run_bind_ok by (rewrite get_calltree_run, Htree; done).
  cbn [address]. rewrite Hrich.
  erewrite run_bind_ok by reflexivity.
  erewrite run_bind_ok by reflexivity.
  erewrite run_bind_ok by reflexivity.
  erewrite run_bind_ok by reflexivity.
  rewrite Hcost.
  erewrite run_bind_ok by reflexivity.
  done.
Qed.

(** C10. [__get_pools] returns a list without duplicates, so does the
    assembly over both registries; the scan runs its step (computation, then
    merge) once per element of that list; and a run of the scan asks the
    gas-table computation at most once per pool address. *)
Theorem scan_visits_each_pool_once :
  (∀ registry fs pools,
     result (run (__get_pools registry) fs) = Ok pools → NoDup pools)
  ∧ (∀ fs pools,
       result (run collect_stableswap_pools fs) = Ok pools → NoDup pools)
  ∧ (∀ min_transactions fs pools,
       result (run collect_stableswap_pools fs) = Ok pools →
       run (_get_gas_costs_for_stableswap_registry_pools min_transactions) fs =
         after [Print "Getting all stableswap pools ...";
                Print ("... found [red]" +:+ pretty (length pools) +:+ " pools.")]
           (run (for_each pools (scan_pool min_transactions)) fs))
  ∧ (∀ min_transactions fs,
       NoDup (requested_pools
                (emitted (run (_get_gas_costs_for_stableswap_registry_pools
                                 min_transactions) fs)))).
Proof.
  split; [apply __get_pools_NoDup|]. split; [apply collect_stableswap_pools_NoDup|].
  split; [by intros min_transactions fs pools Hpools; rewrite scan_run, Hpools|].
  intros min_transactions fs. rewrite scan_run.
  destruct (result (run collect_stableswap_pools fs)) as [pools|e] eqn:Hpools;
    [|apply NoDup_nil_2].
  unfold after. cbn [emitted]. unfold requested_pools. rewrite omap_app. cbn.
  eapply prefix_NoDup; [apply scan_loop_prefix|].
  by eapply collect_stableswap_pools_NoDup.
Qed.

End CommandClaims.

(** ** The reference collaborators at work *)

Lemma positive_of_text_of_positive p :
  Reference.positive_of_text (Reference.text_of_positive p) = Some p.
Proof. induction p as [p IH|p IH|]; cbn; by rewrite ?IH. Qed.

Lemma reference_roundtrip : json_roundtrip Reference.collaborators.
Proof.
  intros costs. cbn. unfold Reference.load, Reference.dump.
  rewrite positive_of_text_of_positive. apply decode_encode.
Qed.

Lemma reference_outranks :
  outranks (E := Reference.collaborators) Reference.sample_files
    STABLESWAP_GAS_TABLE_FILE "0xC" {[ "count" := JInt 501 ]}.
Proof.
  exists {[ "count" := JInt 500 ]}, 500, 501.
  split; [by vm_compute|]. split; [done|]. split; [done|lia].
Qed.

(** C2. The design asks that a cache file that does not parse be healed by
    the next merge.  The code reads it as an empty cache and does not raise,
    but then writes nothing: after merging a table for 0xA into a file that
    holds no JSON, the file still holds what it held. *)
Theorem corrupt_cache_is_not_healed :
  json_load (Collaborators := Reference.collaborators) "{corrupt" = None
  ∧ run (__append_gas_table_to_output_file (E := Reference.collaborators)
           STABLESWAP_GAS_TABLE_FILE "0xA" {[ "count" := JInt 1 ]})
        {[ STABLESWAP_GAS_TABLE_FILE := "{corrupt" ]}
    = {| files := {[ STABLESWAP_GAS_TABLE_FILE := "{corrupt" ]};
         emitted := [banner STABLESWAP_GAS_TABLE_FILE;
                     OpenRead STABLESWAP_GAS_TABLE_FILE];
         result := Ok tt |}.
Proof.
  split; [done|]. apply (append_on_unparsable _ _ "{corrupt"); [|done].
  apply lookup_singleton_eq.
Qed.

Lemma stored_count_never_decreases_witness :
  (∀ (table : GasTable) new,
     table_count table = Some new → new ≤ 500 →
     files (run (__append_gas_table_to_output_file (E := Reference.collaborators)
                   STABLESWAP_GAS_TABLE_FILE "0xC" table) Reference.sample_files)
       = Reference.sample_files)
  ∧ (∀ ops, ∃ c',
       stored_count (E := Reference.collaborators)
         (merges (E := Reference.collaborators) ops Reference.sample_files)
         STABLESWAP_GAS_TABLE_FILE "0xC" = Some c' ∧ 500 ≤ c').
Proof.
  apply (stored_count_never_decreases (E := Reference.collaborators)).
  - exact reference_roundtrip.
  - vm_compute. reflexivity.
Defined.

Lemma remerge_is_noop_witness :
  let once :=
    files (run (__append_gas_table_to_output_file (E := Reference.collaborators)
                  STABLESWAP_GAS_TABLE_FILE "0xC" {[ "count" := JInt 501 ]})
             Reference.sample_files) in
  files (run (__append_gas_table_to_output_file (E := Reference.collaborators)
                STABLESWAP_GAS_TABLE_FILE "0xC" {[ "count" := JInt 501 ]}) once)
    = once.
Proof.
  apply (remerge_is_noop (E := Reference.collaborators)).
  exact reference_roundtrip.
Defined.

Lemma merge_rebinds_one_key_witness :
  let r :=
    run (__append_gas_table_to_output_file (E := Reference.collaborators)
           STABLESWAP_GAS_TABLE_FILE "0xC" {[ "count" := JInt 501 ]})
      Reference.sample_files in
  files r =
    <[STABLESWAP_GAS_TABLE_FILE :=
        Reference.dump (<["0xC" := {[ "count" := JInt 501 ]}]>
                          (cached_costs (E := Reference.collaborators)
                             Reference.sample_files STABLESWAP_GAS_TABLE_FILE))]>
      Reference.sample_files
  ∧ cached_costs (E := Reference.collaborators) (files r)
      STABLESWAP_GAS_TABLE_FILE !! "0xC" = Some {[ "count" := JInt 501 ]}
  ∧ ∀ other, other ≠ "0xC" →
      cached_costs (E := Reference.collaborators) (files r)
        STABLESWAP_GAS_TABLE_FILE !! other
      = cached_costs (E := Reference.collaborators) Reference.sample_files
          STABLESWAP_GAS_TABLE_FILE !! other.
Proof.
  apply (merge_rebinds_one_key (E := Reference.collaborators)).
  - exact reference_roundtrip.
  - exact reference_outranks.
Defined.

Lemma file_written_only_when_outranked_witness :
  written_paths
    (emitted (run (__append_gas_table_to_output_file (E := Reference.collaborators)
                     STABLESWAP_GAS_TABLE_FILE "0xC" {[ "count" := JInt 501 ]})
                Reference.sample_files))
    = [STABLESWAP_GAS_TABLE_FILE].
Proof.
  destruct (file_written_only_when_outranked (E := Reference.collaborators)
              Reference.sample_files STABLESWAP_GAS_TABLE_FILE "0xC"
              {[ "count" := JInt 501 ]}) as (Hwritten & _).
  exact (Hwritten reference_outranks).
Defined.

Lemma empty_table_skips_merge_witness :
  run (scan_pool (E := Reference.collaborators) 500 "0xA") Reference.sample_files =
    {| files := Reference.sample_files;
       emitted := [GasTableRequest {| address := "0xA" |} 500];
       result := Ok tt |}.
Proof.
  destruct (empty_table_skips_merge (E := Reference.collaborators)
              Reference.sample_files) as (Hscan & _).
  exact (Hscan 500 "0xA" eq_refl eq_refl).
Defined.

Lemma scan_catches_single_pool_propagates_witness :
  run (scan_pool (E := Reference.collaborators) 500 "0xB") ∅ =
    {| files := ∅;
       emitted := GasTableRequest {| address := "0xB" |} 500
                    :: reported (E := Reference.collaborators)
                         (UpstreamError "timeout") "0xB";
       result := Ok tt |}.
Proof.
  destruct (scan_catches_single_pool_propagates (E := Reference.collaborators) ∅)
    as (Hscan & _).
  exact (Hscan 500 "0xB" (UpstreamError "timeout") eq_refl eq_refl).
Defined.

Lemma tx_mode_leaves_cache_alone_witness :
  let r := run (_get_gas_costs_tx (E := Reference.collaborators) "0xC" "0xdead")
             Reference.sample_files in
  files r = Reference.sample_files ∧ opened_paths (emitted r) = [] ∧
  result r = Ok tt ∧
  printed (emitted r) =
    [ "Call trace for [bold blue]'0xdead'[/]"; "0xC/0xdead";
      String "010"%char "Gas consumed per method for [red]'0xC':"; "1" ].
Proof.
  destruct (tx_mode_leaves_cache_alone (E := Reference.collaborators)
              "0xC" "0xdead" Reference.sample_files) as (Hfs & Hev & Hok).
  split; [exact Hfs|]. split; [exact Hev|].
  exact (Hok ["0xdead"] ["0xC"; "0xdead"] 1 eq_refl eq_refl eq_refl eq_refl).
Defined.

Lemma scan_visits_each_pool_once_witness :
  NoDup (requested_pools
           (emitted (run (_get_gas_costs_for_stableswap_registry_pools
                            (E := Reference.collaborators) 500) ∅))).
Proof.
  destruct (scan_visits_each_pool_once (E := Reference.collaborators))
    as (_ & _ & _ & Hscan).
  exact (Hscan 500 ∅).
Defined.

(** * Further properties of the merge *)

Section MergeFurther.
Context {E : Collaborators}.

Lemma cached_entry_file fs name addr (stored : GasTable) :
  cached_costs fs name !! addr = Some stored → is_Some (fs !! name).
Proof.
  unfold cached_costs. destruct (fs !! name); [by eauto|].
  by rewrite lookup_empty.
Qed.

Lemma append_other_addr fs name addr other (table : GasTable) :
  json_roundtrip E → other ≠ addr →
  cached_costs (files (run (__append_gas_table_to_output_file name addr table) fs))
    name !! other = cached_costs fs name !! other.
Proof.
  intros Hrt Hne.
  destruct (append_cases fs name addr table) as [(_ & -> & _)|(_ & -> & _)];
    [|done].
  by rewrite cached_costs_written, lookup_insert_ne.
Qed.


Lemma append_lookup_other fs name addr (table : GasTable) path :
  path ≠ name →
  files (run (__append_gas_table_to_output_file name addr table) fs) !! path
  = fs !! path.
Proof.
  intros Hne.
  destruct (append_cases fs name addr table) as [(_ & -> & _)|(_ & -> & _)];
    [|done].
  by rewrite lookup_insert_ne.
Qed.

Lemma append_dom fs name addr (table : GasTable) :
  dom (files (run (__append_gas_table_to_output_file name addr table) fs)) = dom fs.
Proof.
  destruct (append_cases fs name addr table)
    as [((stored & _ & _ & Hstored & _) & -> & _)|(_ & -> & _)]; [|done].
  apply cached_entry_file in Hstored. by apply dom_insert_lookup_L.
Qed.

Lemma append_opens fs name addr (table : GasTable) path :
  path ∈ opened_paths
           (emitted (run (__append_gas_table_to_output_file name addr table) fs)) →
  path = name.
Proof.
  intros Hin.
  destruct (append_cases fs name addr table) as [(_ & _ & Hev & _)|(_ & _ & Hev)];
    rewrite Hev in Hin; unfold reads in Hin;
    destruct (fs !! name); cbn in Hin;
    repeat (apply elem_of_cons in Hin as [Hin|Hin]; [done|]);
    by apply elem_of_nil in Hin.
Qed.

(** X2. What the merge leaves alone.  Every other file keeps its content, the
    set of existing files is the same afterwards (the merge creates no file
    and removes none), the only path it opens is its own, and when the cache
    file does not exist it prints its line and does nothing else. *)
Theorem merge_frame fs name addr (table : GasTable) :
  let r := run (__append_gas_table_to_output_file name addr table) fs in
  (∀ path, path ≠ name → files r !! path = fs !! path)
  ∧ dom (files r) = dom fs
  ∧ (∀ path, path ∈ opened_paths (emitted r) → path = name)
  ∧ (fs !! name = None →
       r = {| files := fs; emitted := [banner name]; result := Ok tt |}).
Proof.
  cbn zeta. split; [by intros; apply append_lookup_other|].
  split; [apply append_dom|]. split; [by intros path; apply append_opens|].
  intros Hnone. rewrite append_run. cbn zeta.
  unfold cached_costs, reads. by rewrite Hnone, lookup_empty.
Qed.

(** X3. For an address whose cached entry has an integer count, merging a
    table with an integer count leaves the larger of the two counts in the
    cache. *)
Theorem merge_keeps_larger_count fs name addr (table : GasTable) old new :
  json_roundtrip E →
  stored_count fs name addr = Some old →
  table_count table = Some new →
  stored_count (files (run (__append_gas_table_to_output_file name addr table) fs))
    name addr = Some (Z.max old new).
Proof.
  intros Hrt Hold Hnew.
  apply stored_count_Some in Hold as (stored & Hstored & Hold).
  destruct (append_cases fs name addr table) as [(Hout & -> & _)|(Hnot & -> & _)].
  - destruct (outranks_inv _ _ _ _ _ Hout Hstored) as (old' & new' & ? & ? & ?).
    assert (old' = old ∧ new' = new) as [-> ->] by (split; congruence).
    apply stored_count_Some. exists table.
    rewrite cached_costs_written, lookup_insert_eq by done.
    split; [done|]. rewrite Hnew. f_equal. lia.
  - apply stored_count_Some. exists stored. split; [done|].
    rewrite Hold. f_equal.
    destruct (decide (old < new)) as [Hlt|Hge]; [|lia].
    destruct Hnot. by exists stored, old, new.
Qed.

(** X4. Merges for two different addresses into the same file commute: in
    either order they leave the same file system. *)
Theorem merges_of_distinct_addresses_commute fs name a1 a2 (t1 t2 : GasTable) :
  json_roundtrip E →
  a1 ≠ a2 →
  merges [(name, a1, t1); (name, a2, t2)] fs
  = merges [(name, a2, t2); (name, a1, t1)] fs.
Proof.
  intros Hrt Hne. cbn [merges].
  assert (∀ a b (ta tb : GasTable), a ≠ b →
    outranks (files (run (__append_gas_table_to_output_file name a ta) fs)) name b tb
    ↔ outranks fs name b tb) as Hsame.
  { intros a b ta tb Hab. unfold outranks.
    by rewrite append_other_addr. }
  destruct (append_cases
              (files (run (__append_gas_table_to_output_file name a1 t1) fs))
              name a2 t2) as [(H2 & -> & _)|(H2 & -> & _)];
  destruct (append_cases
              (files (run (__append_gas_table_to_output_file name a2 t2) fs))
              name a1 t1) as [(H1 & -> & _)|(H1 & -> & _)];
  rewrite Hsame in H1, H2 by done;
  destruct (append_cases fs name a1 t1) as [(H1' & Hf1 & _)|(H1' & Hf1 & _)];
    try done;
  destruct (append_cases fs name a2 t2) as [(H2' & Hf2 & _)|(H2' & Hf2 & _)];
    try done;
  rewrite ?Hf1, ?Hf2; [|done..].
  rewrite !cached_costs_written, !insert_insert_eq by done.
  f_equal. f_equal. by apply insert_insert_ne.
Qed.

End MergeFurther.

(** * Further properties of the commands *)

Section CommandsFurther.
Context {E : Collaborators}.

Lemma silent_run {A} (m : M A) fs :
  silent m → run m fs = {| files := fs; emitted := []; result := result (run m fs) |}.
Proof. intros Hm. destruct (Hm fs) as [Hfs Hev]. by destruct (run m fs); simplify_eq/=. Qed.

Lemma foldl_keep_new_elem_of (l acc : list string) x :
  x ∈ foldl keep_new acc l ↔ x ∈ acc ∨ x ∈ l.
Proof.
  revert acc. induction l as [|y l IH]; intros acc; cbn.
  - rewrite elem_of_nil. tauto.
  - rewrite IH, elem_of_cons. unfold keep_new. case_bool_decide as Hin.
    + split; [tauto|]. intros [?|[->|?]]; tauto.
    + rewrite elem_of_app, list_elem_of_singleton. tauto.
Qed.

(** Keeping the new ones keeps each element where it first occurs. *)
Lemma foldl_keep_new_first_occurrences (l : list string) :
  foldl keep_new [] l = reverse (remove_dups (reverse l)).
Proof.
  induction l as [|x l IH] using rev_ind; [done|].
  rewrite foldl_app, reverse_snoc. cbn [foldl remove_dups]. rewrite IH.
  unfold keep_new.
  destruct (decide_rel (∈) x (reverse l)) as [Hin|Hnin].
  - rewrite bool_decide_eq_true_2
      by (by rewrite elem_of_reverse, elem_of_remove_dups).
    done.
  - rewrite bool_decide_eq_false_2
      by (by rewrite elem_of_reverse, elem_of_remove_dups).
    by rewrite reverse_cons.
Qed.

Lemma get_pools_loop_ok registry fs (listing : nat → string) idx acc :
  (∀ i, i ∈ idx → registry_pool_list registry i = Ok (listing i)) →
  result (run (for_fold idx acc
                 (λ (pools : list string) (i : nat),
                    bind (lift (registry_pool_list registry i))
                      (λ pool,
                         ret (if bool_decide (pool ∈ pools) then pools
                              else pools ++ [pool])))) fs)
  = Ok (foldl keep_new acc (listing <$> idx)).
Proof.
  revert acc fs. induction idx as [|i idx IH]; intros acc fs Hok; [done|].
  cbn [for_fold fmap list_fmap foldl].
  erewrite run_bind_ok.
  2:{ erewrite run_bind_ok; [|unfold run, lift; rewrite Hok by left; done].
      done. }
  cbn [after result]. apply IH. intros j Hj. apply Hok. by right.
Qed.

Lemma get_pools_loop_raise registry fs before i rest e acc :
  (∀ j, j ∈ before → ∃ pool, registry_pool_list registry j = Ok pool) →
  registry_pool_list registry i = Raise e →
  result (run (for_fold (before ++ i :: rest) acc
                 (λ (pools : list string) (i : nat),
                    bind (lift (registry_pool_list registry i))
                      (λ pool,
                         ret (if bool_decide (pool ∈ pools) then pools
                              else pools ++ [pool])))) fs)
  = Raise e.
Proof.
  revert acc fs. induction before as [|j before IH]; intros acc fs Hok He.
  - cbn [app for_fold].
    erewrite run_bind_raise; [done|].
    erewrite run_bind_raise; [|unfold run, lift; rewrite He; done]. done.
  - cbn [app for_fold].
    destruct (Hok j) as [pool Hpool]; [by left|].
    erewrite run_bind_ok.
    2:{ erewrite run_bind_ok; [|unfold run, lift; rewrite Hpool; done]. done. }
    cbn [after result]. apply IH; [|done]. intros k Hk. apply Hok. by right.
Qed.

(** X5. When the registry resolves and every entry below [pool_count] can
    be read, [__get_pools] returns the listed pools, each once, in the order
    of their first occurrence in the listing; it touches no file and emits
    nothing. *)
Theorem get_pools_first_occurrences registry fs n (listing : nat → string) :
  contract_failure registry = None →
  registry_pool_count {| address := registry |} = Ok n →
  (∀ i, (i < n)%nat →
     registry_pool_list {| address := registry |} i = Ok (listing i)) →
  run (__get_pools registry) fs =
    {| files := fs; emitted := [];
       result := Ok (reverse (remove_dups (reverse (listing <$> seq 0 n)))) |}
  ∧ ∀ pool, pool ∈ reverse (remove_dups (reverse (listing <$> seq 0 n)))
            ↔ ∃ i, (i < n)%nat ∧ listing i = pool.
Proof.
  intros Hc Hn Hlist. split.
  - rewrite (silent_run _ _ (silent___get_pools registry)). f_equal.
    unfold __get_pools.
    erewrite run_bind_ok by by apply Contract_ok. rewrite after_nil.
    erewrite run_bind_ok; [|unfold run, lift; rewrite Hn; done]. rewrite after_nil.
    rewrite (get_pools_loop_ok _ _ listing).
    + by rewrite foldl_keep_new_first_occurrences.
    + intros i [_ Hi]%elem_of_seq. apply Hlist. lia.
  - intros pool. rewrite elem_of_reverse, elem_of_remove_dups, elem_of_reverse.
    rewrite list_elem_of_fmap. split.
    + intros (i & -> & [_ Hi]%elem_of_seq). exists i. split; [lia|done].
    + intros (i & Hi & <-). exists i. split; [done|]. apply elem_of_seq. lia.
Qed.

(** X6. [__get_pools] has no handler: a registry that does not resolve, a
    [pool_count] that fails, or the first entry that cannot be read ends it
    with that exception, with no file touched and nothing emitted. *)
Theorem get_pools_propagates_failures registry fs e :
  (contract_failure registry = Some e →
     run (__get_pools registry) fs =
       {| files := fs; emitted := []; result := Raise e |})
  ∧ (contract_failure registry = None →
     registry_pool_count {| address := registry |} = Raise e →
     run (__get_pools registry) fs =
       {| files := fs; emitted := []; result := Raise e |})
  ∧ (∀ n i,
       contract_failure registry = None →
       registry_pool_count {| address := registry |} = Ok n →
       (i < n)%nat →
       (∀ j, (j < i)%nat →
          ∃ pool, registry_pool_list {| address := registry |} j = Ok pool) →
       registry_pool_list {| address := registry |} i = Raise e →
       run (__get_pools registry) fs =
         {| files := fs; emitted := []; result := Raise e |}).
Proof.
  split; [|split].
  - intros Hc. unfold __get_pools. by erewrite run_bind_raise by by apply Contract_raise.
  - intros Hc Hn. unfold __get_pools.
    erewrite run_bind_ok by by apply Contract_ok. rewrite after_nil.
    by erewrite run_bind_raise; [|unfold run, lift; rewrite Hn].
  - intros n i Hc Hn Hi Hbefore Hraise.
    rewrite (silent_run _ _ (silent___get_pools registry)). f_equal.
    unfold __get_pools.
    erewrite run_bind_ok by by apply Contract_ok. rewrite after_nil.
    erewrite run_bind_ok; [|unfold run, lift; rewrite Hn; done]. rewrite after_nil.
    replace n with (i + S (n - S i))%nat by lia.
    rewrite seq_app. cbn [seq plus].
    apply get_pools_loop_raise; [|done].
    intros j [_ Hj]%elem_of_seq. apply Hbefore. lia.
Qed.

(** X7. When both registries can be read, the scan collects exactly the
    pools listed by one or the other, each once, touching no file and
    emitting nothing. *)
Theorem collected_pools_are_the_listed_ones fs (main factory : list string) :
  result (run (__get_pools MAIN_REGISTRY) fs) = Ok main →
  result (run (__get_pools STABLESWAP_FACTORY) fs) = Ok factory →
  ∃ pools,
    run collect_stableswap_pools fs =
      {| files := fs; emitted := []; result := Ok pools |}
    ∧ NoDup pools
    ∧ ∀ pool, pool ∈ pools ↔ pool ∈ main ∨ pool ∈ factory.
Proof.
  intros Hmain Hfactory.
  exists (elements (list_to_set (main ++ factory) : gset string)).
  split; [|split; [apply NoDup_elements|]].
  - unfold collect_stableswap_pools. cbn [for_fold].
    erewrite run_bind_ok; [by rewrite after_nil|].
    erewrite run_bind_ok.
    2:{ erewrite run_bind_ok; [by rewrite after_nil|].
        rewrite (silent_run _ _ (silent___get_pools MAIN_REGISTRY)), Hmain. done. }
    rewrite after_nil.
    erewrite run_bind_ok.
    2:{ erewrite run_bind_ok; [by rewrite after_nil|].
        rewrite (silent_run _ _ (silent___get_pools STABLESWAP_FACTORY)), Hfactory.
        done. }
    by rewrite after_nil.
  - intros pool. by rewrite elem_of_elements, elem_of_list_to_set, elem_of_app.
Qed.

(** X8. A registry that cannot be read ends the scan before any pool is
    looked at: the command raises that exception having printed its first
    line only, and the files are as they were. *)
Theorem scan_needs_both_registries min_transactions fs e :
  (result (run (__get_pools MAIN_REGISTRY) fs) = Raise e →
     run (_get_gas_costs_for_stableswap_registry_pools min_transactions) fs =
       {| files := fs; emitted := [Print "Getting all stableswap pools ..."];
          result := Raise e |})
  ∧ (∀ main,
       result (run (__get_pools MAIN_REGISTRY) fs) = Ok main →
       result (run (__get_pools STABLESWAP_FACTORY) fs) = Raise e →
       run (_get_gas_costs_for_stableswap_registry_pools min_transactions) fs =
         {| files := fs; emitted := [Print "Getting all stableswap pools ..."];
            result := Raise e |}).
Proof.
  assert (result (run collect_stableswap_pools fs) = Raise e →
          run (_get_gas_costs_for_stableswap_registry_pools min_transactions) fs =
            {| files := fs; emitted := [Print "Getting all stableswap pools ..."];
               result := Raise e |}) as Hscan
    by (by intros Hcollect; rewrite scan_run, Hcollect).
  split.
  - intros Hmain. apply Hscan.
    unfold collect_stableswap_pools. cbn [for_fold].
    erewrite run_bind_raise; [done|].
    erewrite run_bind_raise; [done|].
    erewrite run_bind_raise; [done|].
    rewrite (silent_run _ _ (silent___get_pools MAIN_REGISTRY)), Hmain. done.
  - intros main Hmain Hfactory. apply Hscan.
    unfold collect_stableswap_pools. cbn [for_fold].
    erewrite run_bind_raise; [done|].
    erewrite run_bind_ok.
    2:{ erewrite run_bind_ok; [by rewrite after_nil|].
        rewrite (silent_run _ _ (silent___get_pools MAIN_REGISTRY)), Hmain. done. }
    rewrite after_nil.
    erewrite run_bind_raise; [done|].
    erewrite run_bind_raise; [done|].
    rewrite (silent_run _ _ (silent___get_pools STABLESWAP_FACTORY)), Hfactory. done.
Qed.

(** One step of the scan in normal form. *)
Lemma scan_pool_run min_transactions pool_addr fs :
  run (scan_pool min_transactions pool_addr) fs =
    let request := GasTableRequest {| address := pool_addr |} min_transactions in
    match contract_failure pool_addr with
    | Some e => {| files := fs; emitted := []; result := Raise e |}
    | None =>
        match gas_table_for_stableswap_pool {| address := pool_addr |} min_transactions with
        | Raise e =>
            {| files := fs; emitted := request :: reported e pool_addr;
               result := Ok tt |}
        | Ok table =>
            if truthy table then
              let r := run (__append_gas_table_to_output_file
                              STABLESWAP_GAS_TABLE_FILE pool_addr table) fs in
              match result r with
              | Ok _ => after [request] r
              | Raise e =>
                  {| files := files r;
                     emitted := request :: emitted r ++ reported e pool_addr;
                     result := Ok tt |}
              end
            else {| files := fs; emitted := [request]; result := Ok tt |}
        end
    end.
Proof.
  cbn zeta. unfold scan_pool.
  destruct (contract_failure pool_addr) as [e|] eqn:Hc.
  { by erewrite run_bind_raise by by apply Contract_raise. }
  erewrite run_bind_ok by by apply Contract_ok. rewrite after_nil.
  destruct (gas_table_for_stableswap_pool {| address := pool_addr |} min_transactions)
    as [table|e] eqn:Htable.
  2:{ erewrite run_try_raise.
      2:{ by erewrite run_bind_raise by (rewrite get_gas_table_run, Htable; done). }
      done. }
  destruct (truthy table) eqn:Htruthy.
  2:{ erewrite run_try_ok.
      2:{ erewrite run_bind_ok by (rewrite get_gas_table_run, Htable; done).
          by rewrite Htruthy. }
      done. }
  destruct (run (__append_gas_table_to_output_file
                   STABLESWAP_GAS_TABLE_FILE pool_addr table) fs)
    as [fs1 events [[]|e]] eqn:Hrun; cbn [result files emitted].
  - erewrite run_try_ok.
    2:{ erewrite run_bind_ok by (rewrite get_gas_table_run, Htable; done).
        by rewrite Htruthy, Hrun. }
    done.
  - erewrite run_try_raise.
    2:{ erewrite run_bind_ok by (rewrite get_gas_table_run, Htable; done).
        by rewrite Htruthy, Hrun. }
    unfold after. by cbn.
Qed.

Lemma merges_app ops1 ops2 fs :
  merges (ops1 ++ ops2) fs = merges ops2 (merges ops1 fs).
Proof.
  revert fs. induction ops1 as [|[[name addr] table] ops1 IH]; intros fs; [done|].
  cbn [app merges]. apply IH.
Qed.

Lemma merges_lookup_other ops fs path :
  cache_ops ops → path ≠ STABLESWAP_GAS_TABLE_FILE →
  merges ops fs !! path = fs !! path.
Proof.
  intros Hops Hne. revert fs.
  induction Hops as [|[[name addr] table] ops Hname _ IH]; intros fs; [done|].
  cbn in Hname. subst name. cbn [merges]. rewrite IH.
  by apply append_lookup_other.
Qed.

Lemma merges_dom ops fs : dom (merges ops fs) = dom fs.
Proof.
  revert fs. induction ops as [|[[name addr] table] ops IH]; intros fs; [done|].
  cbn [merges]. rewrite IH. apply append_dom.
Qed.

(** What a step of the scan does to the files is what merges into the cache
    file do, and the cache file is the only path it opens. *)
Lemma scan_pool_merges min_transactions pool_addr fs :
  let r := run (scan_pool min_transactions pool_addr) fs in
  (∃ ops, cache_ops ops ∧ files r = merges ops fs)
  ∧ ∀ path, path ∈ opened_paths (emitted r) → path = STABLESWAP_GAS_TABLE_FILE.
Proof.
  cbn zeta. rewrite scan_pool_run. cbn zeta.
  assert (∃ ops, cache_ops ops ∧ fs = merges ops fs) as Hnone
    by (exists []; split; [constructor|done]).
  destruct (contract_failure pool_addr) as [e|];
    [by split; [|intros ? []%elem_of_nil]|].
  destruct (gas_table_for_stableswap_pool _ _) as [table|e];
    [|by split; [|intros ? []%elem_of_nil]].
  destruct (truthy table); [|by split; [|intros ? []%elem_of_nil]].
  assert (∃ ops, cache_ops ops ∧
            files (run (__append_gas_table_to_output_file
                          STABLESWAP_GAS_TABLE_FILE pool_addr table) fs)
            = merges ops fs) as Hone.
  { exists [(STABLESWAP_GAS_TABLE_FILE, pool_addr, table)].
    split; [by repeat constructor|done]. }
  pose proof (append_opens fs STABLESWAP_GAS_TABLE_FILE pool_addr table) as Hopen.
  destruct (result (run (__append_gas_table_to_output_file
                           STABLESWAP_GAS_TABLE_FILE pool_addr table) fs));
    (split; [done|]); intros path; unfold opened_paths in *; cbn;
    rewrite ?omap_app; cbn; rewrite ?app_nil_r; apply Hopen.
Qed.

Lemma scan_loop_merges min_transactions pools fs :
  let r := run (for_each pools (scan_pool min_transactions)) fs in
  (∃ ops, cache_ops ops ∧ files r = merges ops fs)
  ∧ ∀ path, path ∈ opened_paths (emitted r) → path = STABLESWAP_GAS_TABLE_FILE.
Proof.
  revert fs. induction pools as [|pool_addr pools IH]; intros fs.
  { split; [by exists []; split; [constructor|]|by intros ? []%elem_of_nil]. }
  cbn zeta. cbn [for_each].
  destruct (scan_pool_merges min_transactions pool_addr fs)
    as [(ops1 & Hops1 & Hfs1) Hopen1].
  destruct (run (scan_pool min_transactions pool_addr) fs)
    as [fs1 events1 [[]|e]] eqn:Hrun; cbn [files emitted] in Hfs1, Hopen1.
  - erewrite run_bind_ok by exact Hrun.
    destruct (IH fs1) as [(ops2 & Hops2 & Hfs2) Hopen2].
    unfold after. cbn [files emitted]. split.
    + exists (ops1 ++ ops2). split; [by apply Forall_app|].
      by rewrite merges_app, <- Hfs1.
    + intros path. unfold opened_paths in *. rewrite omap_app, elem_of_app.
      intros [?|?]; eauto.
  - erewrite run_bind_raise by exact Hrun. cbn [files emitted]. eauto.
Qed.

Lemma scan_merges min_transactions fs :
  let r := run (_get_gas_costs_for_stableswap_registry_pools min_transactions) fs in
  (∃ ops, cache_ops ops ∧ files r = merges ops fs)
  ∧ ∀ path, path ∈ opened_paths (emitted r) → path = STABLESWAP_GAS_TABLE_FILE.
Proof.
  cbn zeta. rewrite scan_run.
  destruct (result (run collect_stableswap_pools fs)) as [pools|e].
  - destruct (scan_loop_merges min_transactions pools fs) as [Hops Hopen].
    unfold after. cbn [files emitted]. split; [done|].
    intros path. unfold opened_paths in *. rewrite omap_app. cbn. apply Hopen.
  - split; [by exists []; split; [constructor|]|by intros ? []%elem_of_nil].
Qed.

Lemma scan_loop_stops min_transactions before pool_addr rest e fs :
  (∀ addr, addr ∈ before → contract_failure addr = None) →
  contract_failure pool_addr = Some e →
  let r := run (for_each (before ++ pool_addr :: rest)
                  (scan_pool min_transactions)) fs in
  result r = Raise e ∧ requested_pools (emitted r) = before.
Proof.
  intros Hok Hfail. revert fs.
  induction before as [|addr before IH]; intros fs; cbn zeta; cbn [app for_each].
  - erewrite run_bind_raise.
    2:{ rewrite scan_pool_run. cbn zeta. by rewrite Hfail. }
    done.
  - destruct (scan_pool_ok min_transactions addr fs) as [Hres Hreq];
      [apply Hok; by left|].
    destruct (run (scan_pool min_transactions addr) fs)
      as [fs1 events [[]|e']] eqn:Hrun; [|done]. cbn in Hreq.
    erewrite run_bind_ok by exact Hrun.
    destruct (IH (λ a Ha, Hok a (list_elem_of_further _ _ _ Ha)) fs1) as [Hres' Hreq'].
    unfold after. cbn [result emitted]. split; [done|].
    unfold requested_pools in *. by rewrite omap_app, Hreq, Hreq'.
Qed.

(** The single-pool command in normal form. *)
Lemma single_pool_run pool start_block end_block fs :
  run (_get_gas_costs_for_stableswap_pool pool start_block end_block) fs =
    let request :=
      GasTableRangeRequest {| address := pool |} start_block end_block in
    match contract_failure pool with
    | Some e => {| files := fs; emitted := []; result := Raise e |}
    | None =>
        match gas_table_for_stableswap_pool_in_block_range
                {| address := pool |} start_block end_block with
        | Raise e => {| files := fs; emitted := [request]; result := Raise e |}
        | Ok table =>
            if truthy table then
              let r := run (__append_gas_table_to_output_file
                              STABLESWAP_GAS_TABLE_FILE pool table) fs in
              match result r with
              | Ok _ =>
                  {| files := files r;
                     emitted := request :: emitted r ++ [Print (json_dumps table)];
                     result := Ok tt |}
              | Raise e => after [request] r
              end
            else {| files := fs; emitted := [request]; result := Ok tt |}
        end
    end.
Proof.
  cbn zeta. unfold _get_gas_costs_for_stableswap_pool.
  destruct (contract_failure pool) as [e|] eqn:Hc.
  { by erewrite run_bind_raise by by apply Contract_raise. }
  erewrite run_bind_ok by by apply Contract_ok. rewrite after_nil.
  destruct (gas_table_for_stableswap_pool_in_block_range _ _ _)
    as [table|e] eqn:Htable.
  2:{ by erewrite run_bind_raise
        by (rewrite get_gas_table_in_block_range_run, Htable; done). }
  erewrite run_bind_ok by (rewrite get_gas_table_in_block_range_run, Htable; done).
  destruct (truthy table); [|done]. cbn [address].
  destruct (run (__append_gas_table_to_output_file
                   STABLESWAP_GAS_TABLE_FILE pool table) fs)
    as [fs1 events [[]|e]] eqn:Hrun; cbn [result files emitted].
  - erewrite run_bind_ok by exact Hrun. done.
  - erewrite run_bind_raise by exact Hrun. unfold after. by destruct e.
Qed.

Lemma single_pool_merges pool start_block end_block fs :
  let r := run (_get_gas_costs_for_stableswap_pool pool start_block end_block) fs in
  (∃ ops, cache_ops ops ∧ files r = merges ops fs)
  ∧ ∀ path, path ∈ opened_paths (emitted r) → path = STABLESWAP_GAS_TABLE_FILE.
Proof.
  cbn zeta. rewrite single_pool_run. cbn zeta.
  assert (∃ ops, cache_ops ops ∧ fs = merges ops fs) as Hnone
    by (exists []; split; [constructor|done]).
  destruct (contract_failure pool) as [e|];
    [by split; [|intros ? []%elem_of_nil]|].
  destruct (gas_table_for_stableswap_pool_in_block_range _ _ _) as [table|e];
    [|by split; [|intros ? []%elem_of_nil]].
  destruct (truthy table); [|by split; [|intros ? []%elem_of_nil]].
  assert (∃ ops, cache_ops ops ∧
            files (run (__append_gas_table_to_output_file
                          STABLESWAP_GAS_TABLE_FILE pool table) fs)
            = merges ops fs) as Hone.
  { exists [(STABLESWAP_GAS_TABLE_FILE, pool, table)].
    split; [by repeat constructor|done]. }
  pose proof (append_opens fs STABLESWAP_GAS_TABLE_FILE pool table) as Hopen.
  destruct (result (run (__append_gas_table_to_output_file
                           STABLESWAP_GAS_TABLE_FILE pool table) fs));
    (split; [done|]); intros path; unfold opened_paths in *; cbn;
    rewrite ?omap_app; cbn; rewrite ?app_nil_r; apply Hopen.
Qed.

(** X9. The contract of a pool is resolved before the [try]: the first pool
    whose contract does not resolve ends the scan with that exception, after
    the computations for the pools before it and none for the pools after
    it. *)
Theorem scan_stops_at_unresolved_contract
    min_transactions before pool_addr rest e fs :
  result (run collect_stableswap_pools fs) = Ok (before ++ pool_addr :: rest) →
  (∀ addr, addr ∈ before → contract_failure addr = None) →
  contract_failure pool_addr = Some e →
  let r := run (_get_gas_costs_for_stableswap_registry_pools min_transactions) fs in
  result r = Raise e ∧ requested_pools (emitted r) = before.
Proof.
  intros Hpools Hok Hfail. cbn zeta. rewrite scan_run, Hpools.
  destruct (scan_loop_stops min_transactions before pool_addr rest e fs Hok Hfail)
    as [Hres Hreq].
  unfold after. cbn [result emitted]. split; [done|].
  unfold requested_pools in *. by rewrite omap_app, Hreq.
Qed.

(** X10. The scan and the single-pool command touch the cache file only:
    every other file keeps its content, the set of existing files is the
    same afterwards, and no other path is opened. *)
Theorem commands_touch_the_cache_file_only fs :
  (∀ min_transactions,
     let r := run (_get_gas_costs_for_stableswap_registry_pools min_transactions) fs in
     (∀ path, path ≠ STABLESWAP_GAS_TABLE_FILE → files r !! path = fs !! path)
     ∧ dom (files r) = dom fs
     ∧ ∀ path, path ∈ opened_paths (emitted r) → path = STABLESWAP_GAS_TABLE_FILE)
  ∧ (∀ pool start_block end_block,
       let r := run (_get_gas_costs_for_stableswap_pool pool start_block end_block) fs in
       (∀ path, path ≠ STABLESWAP_GAS_TABLE_FILE → files r !! path = fs !! path)
       ∧ dom (files r) = dom fs
       ∧ ∀ path, path ∈ opened_paths (emitted r) → path = STABLESWAP_GAS_TABLE_FILE).
Proof.
  split.
  - intros min_transactions. cbn zeta.
    destruct (scan_merges min_transactions fs) as [(ops & Hops & ->) Hopen].
    split; [by intros; apply merges_lookup_other|]. split; [apply merges_dom|done].
  - intros pool start_block end_block. cbn zeta.
    destruct (single_pool_merges pool start_block end_block fs)
      as [(ops & Hops & ->) Hopen].
    split; [by intros; apply merges_lookup_other|]. split; [apply merges_dom|done].
Qed.

(** X11. No command lowers a count: an entry cached with count [c] is still
    cached after a scan, and after a single-pool command, with a count of at
    least [c]. *)
Theorem commands_never_lower_a_count fs addr c :
  json_roundtrip E →
  stored_count fs STABLESWAP_GAS_TABLE_FILE addr = Some c →
  (∀ min_transactions, ∃ c',
     stored_count
       (files (run (_get_gas_costs_for_stableswap_registry_pools min_transactions) fs))
       STABLESWAP_GAS_TABLE_FILE addr = Some c' ∧ c ≤ c')
  ∧ (∀ pool start_block end_block, ∃ c',
       stored_count
         (files (run (_get_gas_costs_for_stableswap_pool pool start_block end_block) fs))
         STABLESWAP_GAS_TABLE_FILE addr = Some c' ∧ c ≤ c').
Proof.
  intros Hrt Hc. split.
  - intros min_transactions.
    destruct (scan_merges min_transactions fs) as [(ops & _ & ->) _].
    by apply merges_stored_count.
  - intros pool start_block end_block.
    destruct (single_pool_merges pool start_block end_block fs) as [(ops & _ & ->) _].
    by apply merges_stored_count.
Qed.

(** X12. With a pool that resolves and a table that is not empty, the
    single-pool command is the merge of that table under the pool's address:
    it leaves the files the merge leaves and ends as the merge ends, and it
    prints the table after the merge's own line only when the merge returned
    normally. *)
Theorem single_pool_is_a_merge pool start_block end_block (table : GasTable) fs :
  contract_failure pool = None →
  gas_table_for_stableswap_pool_in_block_range
    {| address := pool |} start_block end_block = Ok table →
  table ≠ ∅ →
  let m := run (__append_gas_table_to_output_file
                  STABLESWAP_GAS_TABLE_FILE pool table) fs in
  let r := run (_get_gas_costs_for_stableswap_pool pool start_block end_block) fs in
  files r = files m
  ∧ result r = result m
  ∧ printed (emitted r) =
      printed (emitted m) ++
      match result m with Ok _ => [json_dumps table] | Raise _ => [] end.
Proof.
  intros Hc Htable Hne. cbn zeta. rewrite single_pool_run. cbn zeta.
  rewrite Hc, Htable. unfold truthy. rewrite bool_decide_eq_true_2 by done.
  destruct (run (__append_gas_table_to_output_file
                   STABLESWAP_GAS_TABLE_FILE pool table) fs)
    as [fs1 events [[]|e]]; cbn [result files emitted after].
  - split; [done|]. split; [done|]. unfold printed. cbn. by rewrite omap_app.
  - split; [done|]. split; [done|]. unfold printed. cbn. by rewrite app_nil_r.
Qed.

(** X13. The single-transaction command has no handler.  A contract that
    does not resolve ends it before anything is asked; a call tree that
    cannot be fetched or parsed ends it with nothing printed; and when the
    gas breakdown fails the call tree has already been printed. *)
Theorem tx_mode_failures contractaddr tx fs e :
  (contract_failure contractaddr = Some e →
     run (_get_gas_costs_tx contractaddr tx) fs =
       {| files := fs; emitted := []; result := Raise e |})
  ∧ (contract_failure contractaddr = None →
     calltree_of_tx tx = Raise e →
     run (_get_gas_costs_tx contractaddr tx) fs =
       {| files := fs; emitted := [CallTreeRequest tx]; result := Raise e |})
  ∧ (∀ tree,
       contract_failure contractaddr = None →
       calltree_of_tx tx = Ok tree →
       parse_as_tree tree [contractaddr] = Raise e →
       run (_get_gas_costs_tx contractaddr tx) fs =
         {| files := fs; emitted := [CallTreeRequest tx]; result := Raise e |})
  ∧ (∀ tree rich,
       contract_failure contractaddr = None →
       calltree_of_tx tx = Ok tree →
       parse_as_tree tree [contractaddr] = Ok rich →
       avg_gas_cost_per_method_for_tx {| address := contractaddr |} tree = Raise e →
       let r := run (_get_gas_costs_tx contractaddr tx) fs in
       result r = Raise e ∧
       printed (emitted r) =
         [ "Call trace for [bold blue]'" +:+ tx +:+ "'[/]";
           render_tree rich;
           String "010"%char "Gas consumed per method for [red]'"
             +:+ render_contract {| address := contractaddr |} +:+ "':" ]).
Proof.
  split; [|split; [|split]].
  - intros Hc. unfold _get_gas_costs_tx.
    by erewrite run_bind_raise by by apply Contract_raise.
  - intros Hc Htree. unfold _get_gas_costs_tx.
    erewrite run_bind_ok by by apply Contract_ok. rewrite after_nil.
    by erewrite run_bind_raise by (rewrite get_calltree_run, Htree; done).
  - intros tree Hc Htree Hrich. unfold _get_gas_costs_tx.
    erewrite run_bind_ok by by apply Contract_ok. rewrite after_nil.
    erewrite run_bind_ok by (rewrite get_calltree_run, Htree; done).
    cbn [address]. rewrite Hrich.
    by erewrite run_bind_raise by reflexivity.
  - intros tree rich Hc Htree Hrich Hcost. cbn zeta. unfold _get_gas_costs_tx.
    erewrite run_bind_ok by by apply Contract_ok. rewrite after_nil.
    erewrite run_bind_ok by (rewrite get_calltree_run, Htree; done).
    cbn [address]. rewrite Hrich.
    erewrite run_bind_ok by reflexivity.
    erewrite run_bind_ok by reflexivity.
    erewrite run_bind_ok by reflexivity.
    erewrite run_bind_ok by reflexivity.
    rewrite Hcost.
    by erewrite run_bind_raise by reflexivity.
Qed.

End CommandsFurther.

(** ** The further properties at work *)


Lemma merge_frame_witness :
  run (__append_gas_table_to_output_file (E := Reference.collaborators)
         STABLESWAP_GAS_TABLE_FILE "0xC" {[ "count" := JInt 501 ]}) ∅
  = {| files := ∅; emitted := [banner STABLESWAP_GAS_TABLE_FILE]; result := Ok tt |}.
Proof.
  destruct (merge_frame (E := Reference.collaborators) ∅
              STABLESWAP_GAS_TABLE_FILE "0xC" {[ "count" := JInt 501 ]})
    as (_ & _ & _ & Hmissing).
  by apply Hmissing.
Defined.

Lemma merge_keeps_larger_count_witness :
  stored_count (E := Reference.collaborators)
    (files (run (__append_gas_table_to_output_file (E := Reference.collaborators)
                   STABLESWAP_GAS_TABLE_FILE "0xC" {[ "count" := JInt 501 ]})
              Reference.sample_files))
    STABLESWAP_GAS_TABLE_FILE "0xC" = Some (Z.max 500 501).
Proof.
  apply (merge_keeps_larger_count (E := Reference.collaborators)).
  - exact reference_roundtrip.
  - by vm_compute.
  - done.
Defined.

Lemma merges_of_distinct_addresses_commute_witness :
  merges (E := Reference.collaborators)
    [(STABLESWAP_GAS_TABLE_FILE, "0xC", {[ "count" := JInt 501 ]});
     (STABLESWAP_GAS_TABLE_FILE, "0xD", {[ "count" := JInt 4 ]})]
    Reference.sample_files
  = merges (E := Reference.collaborators)
      [(STABLESWAP_GAS_TABLE_FILE, "0xD", {[ "count" := JInt 4 ]});
       (STABLESWAP_GAS_TABLE_FILE, "0xC", {[ "count" := JInt 501 ]})]
      Reference.sample_files.
Proof.
  apply (merges_of_distinct_addresses_commute (E := Reference.collaborators)).
  - exact reference_roundtrip.
  - done.
Defined.

Lemma get_pools_first_occurrences_witness :
  run (__get_pools (E := Reference.collaborators) MAIN_REGISTRY) ∅
  = {| files := ∅; emitted := []; result := Ok ["0xA"; "0xB"] |}.
Proof.
  destruct (get_pools_first_occurrences (E := Reference.collaborators)
              MAIN_REGISTRY ∅ 3 (λ i, nth i Reference.listed EmptyString))
    as [Hrun _]; [done..|].
  exact Hrun.
Defined.

Lemma get_pools_propagates_failures_witness :
  run (__get_pools
         (E := Faulty.collaborators (λ _, None) Faulty.broken_listing)
         MAIN_REGISTRY) ∅
  = {| files := ∅; emitted := []; result := Raise (UpstreamError "reverted") |}.
Proof.
  destruct (get_pools_propagates_failures
              (E := Faulty.collaborators (λ _, None) Faulty.broken_listing)
              MAIN_REGISTRY ∅ (UpstreamError "reverted")) as (_ & _ & Hentry).
  apply (Hentry 3%nat 1%nat); [done|done|lia| |done].
  intros j Hj. assert (j = 0%nat) as -> by lia. by eexists.
Defined.

Lemma collected_pools_are_the_listed_ones_witness :
  ∃ pools,
    run (collect_stableswap_pools (E := Reference.collaborators)) ∅ =
      {| files := ∅; emitted := []; result := Ok pools |}
    ∧ NoDup pools
    ∧ ∀ pool, pool ∈ pools ↔ pool ∈ ["0xA"; "0xB"] ∨ pool ∈ ["0xA"; "0xB"].
Proof.
  apply (collected_pools_are_the_listed_ones (E := Reference.collaborators));
    by vm_compute.
Defined.

Lemma scan_needs_both_registries_witness :
  run (_get_gas_costs_for_stableswap_registry_pools
         (E := Faulty.collaborators Faulty.offline Faulty.listing) 500) ∅
  = {| files := ∅; emitted := [Print "Getting all stableswap pools ..."];
       result := Raise (UpstreamError "offline") |}.
Proof.
  destruct (scan_needs_both_registries
              (E := Faulty.collaborators Faulty.offline Faulty.listing)
              500 ∅ (UpstreamError "offline")) as [Hmain _].
  apply Hmain. by vm_compute.
Defined.

Lemma scan_stops_at_unresolved_contract_witness :
  let r := run (_get_gas_costs_for_stableswap_registry_pools
                  (E := Faulty.collaborators Faulty.unresolved Faulty.listing) 500) ∅ in
  result r = Raise (UpstreamError "no abi") ∧ requested_pools (emitted r) = ["0xA"].
Proof.
  apply (scan_stops_at_unresolved_contract
           (E := Faulty.collaborators Faulty.unresolved Faulty.listing)
           500 ["0xA"] "0xB" []).
  - by vm_compute.
  - intros addr ->%list_elem_of_singleton. done.
  - done.
Defined.

Lemma commands_never_lower_a_count_witness :
  (∀ min_transactions, ∃ c',
     stored_count (E := Reference.collaborators)
       (files (run (_get_gas_costs_for_stableswap_registry_pools
                      (E := Reference.collaborators) min_transactions)
                 Reference.sample_files))
       STABLESWAP_GAS_TABLE_FILE "0xC" = Some c' ∧ 500 ≤ c')
  ∧ (∀ pool start_block end_block, ∃ c',
       stored_count (E := Reference.collaborators)
         (files (run (_get_gas_costs_for_stableswap_pool
                        (E := Reference.collaborators) pool start_block end_block)
                   Reference.sample_files))
         STABLESWAP_GAS_TABLE_FILE "0xC" = Some c' ∧ 500 ≤ c').
Proof.
  apply (commands_never_lower_a_count (E := Reference.collaborators)).
  - exact reference_roundtrip.
  - by vm_compute.
Defined.

Lemma single_pool_is_a_merge_witness :
  let m := run (__append_gas_table_to_output_file (E := Reference.collaborators)
                  STABLESWAP_GAS_TABLE_FILE "0xC" {[ "count" := JInt 590 ]})
             Reference.sample_files in
  let r := run (_get_gas_costs_for_stableswap_pool (E := Reference.collaborators)
                  "0xC" 10 600) Reference.sample_files in
  files r = files m
  ∧ result r = result m
  ∧ printed (emitted r) =
      printed (emitted m) ++
      match result m with
      | Ok _ => [json_dumps (Collaborators := Reference.collaborators)
                   {[ "count" := JInt 590 ]}]
      | Raise _ => []
      end.
Proof.
  apply (single_pool_is_a_merge (E := Reference.collaborators)
           "0xC" 10 600 {[ "count" := JInt 590 ]}).
  - done.
  - done.
  - apply (bool_decide_unpack _). by vm_compute.
Defined.

Lemma tx_mode_failures_witness :
  run (_get_gas_costs_tx (E := Faulty.collaborators (λ _, None) Faulty.listing)
         "0xC" "0x0") ∅
  = {| files := ∅; emitted := [CallTreeRequest "0x0"];
       result := Raise (KeyError "tx") |}.
Proof.
  destruct (tx_mode_failures (E := Faulty.collaborators (λ _, None) Faulty.listing)
              "0xC" "0x0" ∅ (KeyError "tx")) as (_ & Htree & _).
  by apply Htree.
Defined.
